(** * gymnax: the Catch environment and the space descriptors

    A shallow embedding of [gymnax/environments/bsuite/catch.py] and
    [gymnax/environments/spaces.py], and the properties of the
    specification checked against it.

    Conventions of the embedding.
    - The state is a JAX array of 32-bit signed integers (the type that
      [jnp.array] and [jax.random.randint] give to integers).  An entry
      is the [Z] it denotes, and the additions, subtractions and
      multiplications on entries wrap around modulo [2^32]: [add32],
      [sub32], [mul32], written [[+]], [[-]], [[*]].  The action is such
      an integer too: it is what the compiled [step_catch] receives.
    - A Python [bool] is a [bool]; where the source does arithmetic on it,
      or stores it in the integer state array, it is cast with [Z.b2z].
    - The observation grid holds the floats [0.] and [1.] only; a cell is
      modelled by the integer it denotes.
    - [jax.random] is an external library: it is the interface
      [JaxRandom] below, with the part of its contract that is used.
    - A call that can raise a Python exception returns a [result].
    - An integer of a space ([num_categories], a tested value) is a
      Python integer, of any size; a key of a dictionary is a string or
      an integer.
    - The space [Box] samples and compares arrays of floating-point
      numbers and is left out; [Dict] and [Tuple] are stated for any
      class of spaces that has the two methods. *)

From Stdlib Require Import ZArith Lia.
From stdpp Require Import base tactics option list strings.

Local Open Scope Z_scope.

(** ** 32-bit integers *)

Definition int_min : Z := - 2 ^ 31.
Definition int_max : Z := 2 ^ 31 - 1.

(** The integers that a 32-bit signed integer can hold. *)
Definition int32 (z : Z) : Prop := int_min <= z <= int_max.

Definition is_int32 (z : Z) : bool := (int_min <=? z) && (z <=? int_max).

(** The 32-bit integer that an operation returns when its exact result is
    [z]: the result wraps around. *)
Definition wrap (z : Z) : Z := (z - int_min) mod 2 ^ 32 + int_min.

Definition add32 (a b : Z) : Z := wrap (a + b).
Definition sub32 (a b : Z) : Z := wrap (a - b).
Definition mul32 (a b : Z) : Z := wrap (a * b).

Infix "[+]" := add32 (at level 50, left associativity).
Infix "[-]" := sub32 (at level 50, left associativity).
Infix "[*]" := mul32 (at level 40, left associativity).

(** ** The random number interface *)

(** [randint k minval maxval] is
    [jax.random.randint(k, shape=(), minval=minval, maxval=maxval)] for
    bounds that are 32-bit integers: an integer of the half-open range
    when the range is not empty.
    [split k n] is [jax.random.split(k, n)]: an array of [n] keys. *)
Class JaxRandom (PRNGKey : Type) := {
  randint : PRNGKey -> Z -> Z -> Z;
  split : PRNGKey -> nat -> list PRNGKey;
  randint_range : forall k minval maxval,
    int32 minval -> int32 maxval ->
    minval < maxval -> minval <= randint k minval maxval < maxval;
  split_length : forall k n, length (split k n) = n
}.

(** A generator that can be run: keys are integers, [randint] reduces the
    key into the range, [split] numbers the children of a key. *)
Definition mod_randint (k minval maxval : Z) : Z :=
  if minval <? maxval then minval + k mod (maxval - minval) else minval.

Definition mod_split (k : Z) (n : nat) : list Z :=
  map (fun i : nat => k * Z.of_nat n + Z.of_nat i) (seq 0 n).

(** ** Indexing *)

(** An integer index into a sequence or an array axis of [size] entries,
    in Python and in JAX: a negative index counts from the end, and an
    index outside the axis addresses nothing. *)
Definition axis_index (size : nat) (i : Z) : option nat :=
  let j := if i <? 0 then i + Z.of_nat size else i in
  if (0 <=? j) && (j <? Z.of_nat size) then Some (Z.to_nat j) else None.

(** ** Catch *)

Module Catch.

(** [params_catch = {"max_steps_in_episode": 2000,}] *)
Record Params := { max_steps_in_episode : Z }.
Definition params_catch : Params := {| max_steps_in_episode := 2000 |}.

Definition rows : Z := 10.
Definition columns : Z := 5.

(** The state array [[ball_x, ball_y, paddle_x, paddle_y, time, done]]
    of 32-bit integers; the field at index [i] of the array is the [i]-th
    field here. *)
Record State := mkState {
  ball_x : Z;        (* state[0] *)
  ball_y : Z;        (* state[1] *)
  paddle_x : Z;      (* state[2] *)
  paddle_y : Z;      (* state[3] *)
  time_elapsed : Z;  (* state[4] *)
  done_flag : Z      (* state[5] *)
}.

(** The observation: a list of rows. *)
Abbreviation Board := (list (list Z)).

(** [jnp.zeros((rows, columns))] *)
Definition zeros (r c : Z) : Board :=
  replicate (Z.to_nat r) (replicate (Z.to_nat c) 0).

(** [jax.ops.index_update(board, jax.ops.index[r, c], v)]: a new board
    with cell [(r, c)] set to [v]; an update outside the board is
    dropped. *)
Definition index_update (board : Board) (r c : Z) (v : Z) : Board :=
  match axis_index (length board) r with
  | Some i =>
      match board !! i with
      | Some row =>
          match axis_index (length row) c with
          | Some j => <[i := <[j := v]> row]> board
          | None => board
          end
      | None => board
      end
  | None => board
  end.

(** [jnp.clip(x, lo, hi)] *)
Definition clip (x lo hi : Z) : Z := Z.min hi (Z.max lo x).

(** The empty dictionary returned as [info]. *)
Definition Info := list (string * Z).

Section Env.
Context {PRNGKey : Type} `{!JaxRandom PRNGKey}.

Definition sample_init_state (rng_input : PRNGKey) (params : Params)
  : Z * Z * Z * Z :=
  let high := zeros rows columns in
  let ball_x := randint rng_input 0 columns in
  let ball_y := 0 in
  let paddle_x := columns / 2 in
  let paddle_y := rows - 1 in
  (ball_x, ball_y, paddle_x, paddle_y).

Definition get_obs (state : State) (params : Params) : Board :=
  let board := zeros rows columns in
  let board := index_update board (ball_y state) (ball_x state) 1 in
  let board := index_update board (paddle_y state) (paddle_x state) 1 in
  board.

Definition reset (rng_input : PRNGKey) (params : Params) : Board * State :=
  let '(ball_x, ball_y, paddle_x, paddle_y) :=
    sample_init_state rng_input params in
  let state := mkState ball_x ball_y paddle_x paddle_y 0 0 in
  (get_obs state params, state).

(** What [step] returns: [(obs, state, reward, done, info)]. *)
Record StepResult := mkStepResult {
  res_obs : Board;
  res_state : State;
  res_reward : Z;
  res_done : bool;
  res_info : Info
}.

Definition step (rng_input : PRNGKey) (params : Params) (state : State)
    (action : Z) : StepResult :=
  let '(ball_x0, ball_y0, paddle_x0, paddle_y0) :=
    sample_init_state rng_input params in
  let prev_done := done_flag state in
  let dx := action [-] 1 in
  let paddle_x' := clip (paddle_x state [+] dx) 0 (columns - 1)
                   [*] (1 [-] prev_done) [+] paddle_x0 [*] prev_done in
  let ball_y' :=
    (ball_y state [+] 1) [*] (1 [-] prev_done) [+] ball_y0 [*] prev_done in
  let ball_x' :=
    ball_x state [*] (1 [-] prev_done) [+] ball_x0 [*] prev_done in
  let paddle_y' :=
    paddle_y state [*] (1 [-] prev_done) [+] paddle_y0 [*] prev_done in
  let done := ball_y' =? paddle_y' in
  let catched := paddle_x' =? ball_x' in
  (* the operands are 0, 1 and -1: no operation wraps *)
  let reward := Z.b2z done * (1 * Z.b2z catched + -1 * (1 - Z.b2z catched)) in
  let info : Info := [] in
  let time := time_elapsed state [+] 1 in
  let state' := mkState ball_x' ball_y' paddle_x' paddle_y' time (Z.b2z done) in
  mkStepResult (get_obs state' params) state' reward done info.

(** The states that a driver can reach: those returned by [reset], and
    those returned by [step] from a reachable state, with any seed and any
    integer as action. *)
Inductive reachable : State -> Prop :=
| reachable_reset rng_input params :
    reachable (reset rng_input params).2
| reachable_step rng_input params state action :
    reachable state ->
    reachable (res_state (step rng_input params state action)).

(** The state after a sequence of calls of [step], each with its seed and
    its action, the state returned by one call being passed to the
    next. *)
Definition run (params : Params) (state : State)
    (calls : list (PRNGKey * Z)) : State :=
  foldl (fun s '(rng_input, action) =>
           res_state (step rng_input params s action))
        state calls.

(** What the calls of such a sequence return, in order. *)
Fixpoint trace (params : Params) (state : State)
    (calls : list (PRNGKey * Z)) : list StepResult :=
  match calls with
  | [] => []
  | (rng_input, action) :: calls =>
      let r := step rng_input params state action in
      r :: trace params (res_state r) calls
  end.

End Env.

(** [board[i, j]], for an index pair inside the board. *)
Definition cell (board : Board) (i j : nat) : option Z :=
  row ← board !! i; row !! j.

(** The number of cells of the board that hold [1]. *)
Definition count_ones (board : Board) : nat :=
  length (filter (fun x => x = 1) (concat board)).

(** Every entry of the state array is a 32-bit integer. *)
Definition state_int32 (s : State) : Prop :=
  int32 (ball_x s) /\ int32 (ball_y s) /\ int32 (paddle_x s) /\
  int32 (paddle_y s) /\ int32 (time_elapsed s) /\ int32 (done_flag s).

(** The invariants of the state: the positions are on the board, the
    paddle is in the bottom row and the flag is a truth value. *)
Definition state_invariants (s : State) : Prop :=
  0 <= ball_x s < columns /\
  0 <= paddle_x s < columns /\
  paddle_y s = rows - 1 /\
  0 <= ball_y s <= rows - 1 /\
  (done_flag s = 0 \/ done_flag s = 1).

(** The invariants together with what the flag records: the episode is
    over exactly when the ball is in the paddle row. *)
Definition episode_invariants (s : State) : Prop :=
  state_invariants s /\ (done_flag s = 1 <-> ball_y s = rows - 1).

(** The ball or the paddle is at row [r], column [c]. *)
Definition occupied (s : State) (r c : Z) : Prop :=
  (r = ball_y s /\ c = ball_x s) \/ (r = paddle_y s /\ c = paddle_x s).

#[global] Instance occupied_dec s r c : Decision (occupied s r c).
Proof. unfold occupied. apply _. Defined.

(** The board has [nr] rows of [nc] cells. *)
Definition board_shape (board : Board) (nr nc : nat) : Prop :=
  length board = nr /\ Forall (fun row => length row = nc) board.

(** The actions of the environment: left, stay, right. *)
Definition valid_action (action : Z) : Prop :=
  action = 0 \/ action = 1 \/ action = 2.

End Catch.

(** ** Spaces *)

Module Spaces.

(** The Python exceptions that the modelled code can raise. *)
Inductive exn :=
| TypeError | KeyError | IndexError | AssertionError | OverflowError.

(** The outcome of a call: a returned value or a raised exception. *)
Inductive result (A : Type) :=
| Ok (a : A)
| Raise (e : exn).
Arguments Ok {A} a.
Arguments Raise {A} e.

#[global] Instance result_ret : MRet result := fun A a => Ok a.
#[global] Instance result_bind : MBind result := fun A B f m =>
  match m with
  | Ok a => f a
  | Raise e => Raise e
  end.
#[global] Instance result_fmap : FMap result := fun A B f m =>
  match m with
  | Ok a => Ok (f a)
  | Raise e => Raise e
  end.

(** A key of a dictionary: a string or an integer. *)
Inductive dict_key :=
| KStr (s : string)
| KInt (i : Z).

#[global] Instance dict_key_eq_dec : EqDecision dict_key.
Proof. solve_decision. Defined.

(** The values that are sampled and tested: an integer, a tuple, or a
    dictionary with its entries in insertion order. *)
#[warnings="-register-all"]
Inductive value :=
| VInt (z : Z)
| VTuple (vs : list value)
| VDict (kvs : list (dict_key * value)).

(** A space is any object with the two methods [sample] and [contains]. *)
Class Space (PRNGKey S : Type) := {
  sample : S -> PRNGKey -> result value;
  contains : S -> value -> result bool
}.

(** The object between the brackets of a subscription [l[k]]: an integer,
    a string, or another object (here: a space). *)
Inductive subscript (S : Type) :=
| Int (i : Z)
| Str (k : string)
| Obj (o : S).
Arguments Int {S} i.
Arguments Str {S} k.
Arguments Obj {S} o.

(** [l[k]] for a tuple or list [l]: only an integer selects an entry. *)
Definition seq_getitem {S A : Type} (l : list A) (k : subscript S) : result A :=
  match k with
  | Int i =>
      match axis_index (length l) i with
      | Some n => match l !! n with Some a => Ok a | None => Raise IndexError end
      | None => Raise IndexError
      end
  | Str _ | Obj _ => Raise TypeError
  end.

(** [d[k]] for a dictionary [d]. *)
Fixpoint dict_getitem {A : Type} (d : list (dict_key * A)) (k : dict_key)
  : result A :=
  match d with
  | [] => Raise KeyError
  | (k', a) :: d' => if decide (k' = k) then Ok a else dict_getitem d' k
  end.

(** [x[k]] for a value [x] and a key [k] of a dictionary of spaces: an
    integer has no subscription, a tuple is subscripted by an integer,
    a dictionary by any key. *)
Definition value_getitem (x : value) (k : dict_key) : result value :=
  match x with
  | VInt _ => Raise TypeError
  | VTuple vs =>
      match k with
      | KStr s => seq_getitem vs (@Str unit s)
      | KInt i => seq_getitem vs (@Int unit i)
      end
  | VDict kvs => dict_getitem kvs k
  end.

(** [enumerate(l)] *)
Definition enumerate {A : Type} (l : list A) : list (nat * A) :=
  imap (fun i a => (i, a)) l.

(** [OrderedDict(items)]: a later item with the key of an earlier one
    replaces its value and keeps its place. *)
Fixpoint dict_setitem {A : Type} (d : list (dict_key * A)) (k : dict_key)
    (a : A) : list (dict_key * A) :=
  match d with
  | [] => [(k, a)]
  | (k', a') :: d' =>
      if decide (k' = k) then (k', a) :: d' else (k', a') :: dict_setitem d' k a
  end.

Definition OrderedDict {A : Type} (items : list (dict_key * A))
  : list (dict_key * A) :=
  fold_left (fun d '(k, a) => dict_setitem d k a) items [].

(** *** Discrete *)

Record Discrete := mkDiscrete { num_categories : Z }.

(** [Discrete.__init__]: the assertion, then the attribute. *)
Definition Discrete_init (num_categories : Z) : result Discrete :=
  if 0 <=? num_categories then Ok (mkDiscrete num_categories)
  else Raise AssertionError.

Section Methods.
Context {PRNGKey : Type} `{!JaxRandom PRNGKey}.

(** [num_categories - 1] is a Python integer, which [randint] converts
    to a 32-bit integer: one that does not fit raises an [OverflowError].
    The cast [.astype(self.dtype)] of the result to the integer type is
    the identity. *)
Definition Discrete_sample (self : Discrete) (rng : PRNGKey) : result value :=
  let maxval := num_categories self - 1 in
  if is_int32 maxval then Ok (VInt (randint rng 0 maxval))
  else Raise OverflowError.

(** [x >= 0] and [x < n] are defined for a number only. *)
Definition Discrete_contains (self : Discrete) (x : value) : result bool :=
  match x with
  | VInt z =>
      let range_cond := (z >=? 0) && (z <? num_categories self) in
      Ok range_cond
  | VTuple _ | VDict _ => Raise TypeError
  end.

#[global] Instance Discrete_space : Space PRNGKey Discrete := {|
  sample := Discrete_sample;
  contains := Discrete_contains
|}.

End Methods.

(** *** Dict *)

(** The dictionary of spaces, in insertion order, with entries of a class
    [S] of spaces.  [num_spaces] is set to [len(spaces)] by [__init__]. *)
Record Dict (S : Type) := mkDict { Dict_spaces : list (dict_key * S) }.
Arguments mkDict {S} _.
Arguments Dict_spaces {S} _.

Definition Dict_num_spaces {S : Type} (self : Dict S) : nat :=
  length (Dict_spaces self).

(** *** Tuple *)

(** The tuple or list of spaces.  [num_spaces] is set to [len(spaces)] by
    [__init__]. *)
Record Tuple (S : Type) := mkTuple { Tuple_spaces : list S }.
Arguments mkTuple {S} _.
Arguments Tuple_spaces {S} _.

Definition Tuple_num_spaces {S : Type} (self : Tuple S) : nat :=
  length (Tuple_spaces self).

Section Composite.
Context {PRNGKey : Type} `{!JaxRandom PRNGKey}.
Context {S : Type} `{!Space PRNGKey S}.

(** [key_split[i]] *)
Definition key_getitem (key_split : list PRNGKey) (i : nat) : result PRNGKey :=
  match key_split !! i with
  | Some k => Ok k
  | None => Raise IndexError
  end.

(** Iterating over a dictionary yields its keys; [self.spaces[k]] then
    looks the key up again. *)
Definition Dict_sample (self : Dict S) (rng : PRNGKey) : result value :=
  let key_split := split rng (Dict_num_spaces self) in
  items ← mapM (fun '(i, k) =>
                  space ← dict_getitem (Dict_spaces self) k;
                  key ← key_getitem key_split i;
                  v ← sample space key;
                  mret (k, v))
               (enumerate (Dict_spaces self).*1);
  mret (VDict (OrderedDict items)).

(** The loop [for ...: out_of_space += 1 - space.contains(...)]. *)
Definition Dict_contains (self : Dict S) (x : value) : result bool :=
  out_of_space ← foldl (fun acc '(k, space) =>
                          out_of_space ← acc;
                          xk ← value_getitem x k;
                          c ← contains space xk;
                          mret (out_of_space + (1 - Z.b2z c)))
                       (mret 0) (Dict_spaces self);
  mret (out_of_space =? 0).

(** Iterating over the sequence of spaces yields the spaces themselves,
    so the subscript [k] of [self.spaces[k]] is a space, an object that
    is no integer. *)
Definition Tuple_sample (self : Tuple S) (rng : PRNGKey) : result value :=
  let key_split := split rng (Tuple_num_spaces self) in
  vs ← mapM (fun '(i, k) =>
               space ← seq_getitem (Tuple_spaces self) (Obj k);
               key ← key_getitem key_split i;
               sample space key)
            (enumerate (Tuple_spaces self));
  mret (VTuple vs).

(** Every space is asked about the whole of [x]. *)
Definition Tuple_contains (self : Tuple S) (x : value) : result bool :=
  out_of_space ← foldl (fun acc space =>
                          out_of_space ← acc;
                          c ← contains space x;
                          mret (out_of_space + (1 - Z.b2z c)))
                       (mret 0) (Tuple_spaces self);
  mret (out_of_space =? 0).

#[global] Instance Dict_space : Space PRNGKey (Dict S) := {|
  sample := Dict_sample;
  contains := Dict_contains
|}.

#[global] Instance Tuple_space : Space PRNGKey (Tuple S) := {|
  sample := Tuple_sample;
  contains := Tuple_contains
|}.

End Composite.
End Spaces.

(** * Properties *)

(** ** The runnable generator meets the interface *)

Lemma mod_randint_range k minval maxval :
  minval < maxval -> minval <= mod_randint k minval maxval < maxval.
Proof.
  intros Hlt. unfold mod_randint.
  destruct (Z.ltb_spec minval maxval) as [_|Hge]; [|lia].
  pose proof (Z.mod_pos_bound k (maxval - minval)). lia.
Qed.

Lemma mod_split_length k n : length (mod_split k n) = n.
Proof. unfold mod_split. by rewrite length_map, length_seq. Qed.

#[global] Instance mod_random : JaxRandom Z := {|
  randint := mod_randint;
  split := mod_split;
  randint_range k minval maxval _ _ := mod_randint_range k minval maxval;
  split_length := mod_split_length
|}.

(** ** 32-bit arithmetic *)

Lemma int32_is_int32 z : is_int32 z = true <-> int32 z.
Proof.
  unfold is_int32, int32.
  rewrite andb_true_iff, Z.leb_le, Z.leb_le. done.
Qed.

Lemma wrap_int32 z : int32 (wrap z).
Proof.
  unfold wrap, int32, int_min, int_max.
  pose proof (Z.mod_pos_bound (z - - 2 ^ 31) (2 ^ 32)). lia.
Qed.

Lemma wrap_id z : int32 z -> wrap z = z.
Proof.
  unfold wrap, int32, int_min, int_max. intros Hz.
  rewrite Z.mod_small; lia.
Qed.

Lemma wrap_wrap z : wrap (wrap z) = wrap z.
Proof. apply wrap_id, wrap_int32. Qed.

Lemma wrap_add_l a b : wrap (wrap a + b) = wrap (a + b).
Proof.
  unfold wrap. f_equal.
  replace ((a - int_min) mod 2 ^ 32 + int_min + b - int_min)
    with ((a - int_min) mod 2 ^ 32 + b) by lia.
  rewrite Zplus_mod_idemp_l. f_equal. lia.
Qed.

(** [unwrap] removes the [wrap] of a value that is a 32-bit integer by
    the hypotheses. *)
Ltac unwrap :=
  repeat match goal with
    | |- context [wrap ?z] =>
        rewrite (wrap_id z) by (unfold int32, int_min, int_max; lia)
    end.

(** The blend of a transition value [t] and a fresh value [f] by a flag
    that is 0 selects [t], by a flag that is 1 selects [f]. *)
Lemma blend_0 t f : t [*] (1 [-] 0) [+] f [*] 0 = wrap t.
Proof.
  unfold add32, mul32, sub32. rewrite Z.mul_0_r.
  change (wrap (1 - 0)) with 1. change (wrap 0) with 0.
  by rewrite Z.mul_1_r, Z.add_0_r, wrap_wrap.
Qed.

Lemma blend_1 t f : t [*] (1 [-] 1) [+] f [*] 1 = wrap f.
Proof.
  unfold add32, mul32, sub32.
  change (wrap (1 - 1)) with 0. rewrite Z.mul_0_r, Z.mul_1_r.
  change (wrap 0) with 0. by rewrite Z.add_0_l, wrap_wrap.
Qed.


(** ** Catch: the transition *)

Section CatchProperties.
Import Catch.
Context {PRNGKey : Type} `{!JaxRandom PRNGKey}.
Implicit Types (rng : PRNGKey) (params : Params) (state : State) (action : Z).

Lemma sample_init_state_eq rng params :
  sample_init_state rng params = (randint rng 0 5, 0, 2, 9).
Proof. reflexivity. Qed.

Lemma sample_column_range rng : 0 <= randint rng 0 5 < 5.
Proof. apply randint_range; unfold int32, int_min, int_max; lia. Qed.

Lemma reset_state rng params :
  (reset rng params).2 = mkState (randint rng 0 5) 0 2 9 0 0.
Proof. reflexivity. Qed.

Lemma clip_range x lo hi : lo <= hi -> lo <= clip x lo hi <= hi.
Proof. unfold clip. lia. Qed.

Lemma clip_inside x lo hi : lo <= x <= hi -> clip x lo hi = x.
Proof. unfold clip. lia. Qed.

(** The new state when the previous step did not end the episode. *)
Lemma step_state_running rng params state action :
  done_flag state = 0 ->
  res_state (step rng params state action) =
    let ball_y' := wrap (ball_y state + 1) in
    mkState (wrap (ball_x state)) ball_y'
      (clip (wrap (paddle_x state + wrap (action - 1))) 0 4)
      (wrap (paddle_y state))
      (wrap (time_elapsed state + 1))
      (Z.b2z (ball_y' =? wrap (paddle_y state))).
Proof.
  intros Hd. unfold step. rewrite sample_init_state_eq.
  cbn -[clip add32 sub32 mul32]. rewrite Hd, !blend_0.
  change (columns - 1) with 4.
  pose proof (clip_range (paddle_x state [+] (action [-] 1)) 0 4).
  unfold add32, sub32 in *. rewrite !wrap_wrap. unwrap. done.
Qed.

(** The new state when the previous step ended the episode. *)
Lemma step_state_done rng params state action :
  done_flag state = 1 ->
  res_state (step rng params state action) =
    mkState (randint rng 0 5) 0 2 9 (wrap (time_elapsed state + 1)) 0.
Proof.
  intros Hd. unfold step. rewrite sample_init_state_eq.
  cbn -[clip add32 sub32 mul32]. rewrite Hd, !blend_1.
  pose proof (sample_column_range rng). unwrap. done.
Qed.

(** What [step] returns besides the state, in terms of the new state. *)
Lemma step_outputs rng params state action :
  let r := step rng params state action in
  let s' := res_state r in
  res_done r = (ball_y s' =? paddle_y s') /\
  done_flag s' = Z.b2z (res_done r) /\
  res_reward r =
    Z.b2z (res_done r) * (if paddle_x s' =? ball_x s' then 1 else -1) /\
  res_obs r = get_obs s' params /\
  res_info r = [].
Proof.
  unfold step. rewrite sample_init_state_eq.
  cbn -[clip add32 sub32 mul32 Z.mul Z.add Z.sub get_obs].
  repeat split. f_equal. by destruct (_ =? ball_x state [*] _ [+] _).
Qed.

Lemma step_state_flag rng params state action :
  done_flag state = 0 \/ done_flag state = 1 ->
  done_flag state = 0 /\
    res_state (step rng params state action) =
      mkState (wrap (ball_x state)) (wrap (ball_y state + 1))
        (clip (wrap (paddle_x state + wrap (action - 1))) 0 4)
        (wrap (paddle_y state))
        (wrap (time_elapsed state + 1))
        (Z.b2z (wrap (ball_y state + 1) =? wrap (paddle_y state)))
  \/
  done_flag state = 1 /\
    res_state (step rng params state action) =
      mkState (randint rng 0 5) 0 2 9 (wrap (time_elapsed state + 1)) 0.
Proof.
  intros [Hd|Hd]; [left|right]; split; try done.
  - by rewrite step_state_running.
  - by rewrite step_state_done.
Qed.

(** C1 (amended). Auto-reset by blending.  For a state of 32-bit
    integers whose done flag is 0 or 1 and any 32-bit action, each
    position field of the new state is the value of the transition times
    [1 - prev_done] plus the value of the freshly sampled initial state
    times [prev_done], the transition being computed in 32-bit
    arithmetic.  So when [prev_done = 1] the new [ball_x] is the column
    sampled from the incoming seed, [ball_y' = 0],
    [paddle_x' = columns / 2 = 2] and [paddle_y' = rows - 1 = 9], whatever
    the positions passed in and the action.  When [prev_done = 0],
    [ball_x' = ball_x]; [ball_y' = ball_y + 1] unless [ball_y] is the
    largest 32-bit integer; and
    [paddle_x' = clip (paddle_x + action - 1) 0 4] when [action - 1] and
    [paddle_x + action - 1] are 32-bit integers (otherwise the sums wrap
    around before the clip). *)
Theorem step_blend rng params state action :
  done_flag state = 0 \/ done_flag state = 1 ->
  state_int32 state -> int32 action ->
  let prev_done := done_flag state in
  let '(ball_x0, ball_y0, paddle_x0, paddle_y0) :=
    sample_init_state rng params in
  let s' := res_state (step rng params state action) in
  (ball_x s' = ball_x state * (1 - prev_done) + ball_x0 * prev_done /\
   ball_y s' = (ball_y state [+] 1) * (1 - prev_done) + ball_y0 * prev_done /\
   paddle_x s' = clip (paddle_x state [+] (action [-] 1)) 0 4 * (1 - prev_done)
                 + paddle_x0 * prev_done /\
   paddle_y s' = paddle_y state * (1 - prev_done) + paddle_y0 * prev_done) /\
  (prev_done = 1 ->
     ball_x s' = randint rng 0 columns /\
     ball_y s' = 0 /\
     paddle_x s' = columns / 2 /\ paddle_x s' = 2 /\
     paddle_y s' = rows - 1 /\ paddle_y s' = 9) /\
  (prev_done = 0 ->
     ball_x s' = ball_x state /\
     (ball_y state < int_max -> ball_y s' = ball_y state + 1) /\
     (int32 (action - 1) -> int32 (paddle_x state + action - 1) ->
      paddle_x s' = clip (paddle_x state + action - 1) 0 4)).
Proof.
  intros Hflag (Hbx & Hby & Hpx & Hpy & _) Hact.
  rewrite sample_init_state_eq. cbv zeta.
  unfold int32, int_min, int_max in *.
  destruct (step_state_flag rng params state action Hflag)
    as [[Hd ->]|[Hd ->]]; rewrite Hd; cbn [ball_x ball_y paddle_x paddle_y];
    change (columns / 2) with 2; change (rows - 1) with 9;
    change columns with 5; unfold add32, sub32.
  - unwrap. split; [lia|]. split; [done|]. intros _.
    split; [done|]. split.
    + intros Hmax. unwrap. done.
    + intros Hdx Hsum. unwrap.
      by replace (paddle_x state + (action - 1))
        with (paddle_x state + action - 1) by lia.
  - split; [lia|]. split; [done|]. lia.
Qed.

(** C2. The reward law.  For a state that satisfies the invariants and any
    action: a non-zero reward implies [done' = 1]; the reward is 1 exactly
    when [done' = 1] and [paddle_x' = ball_x']; it is -1 exactly when
    [done' = 1] and [paddle_x' <> ball_x']; otherwise it is 0.  So the
    reward is -1, 0 or 1. *)
Theorem step_reward_law rng params state action :
  state_invariants state ->
  let r := step rng params state action in
  let s' := res_state r in
  let done' := Z.b2z (res_done r) in
  let reward := res_reward r in
  (reward <> 0 -> done' = 1) /\
  (reward = 1 <-> done' = 1 /\ paddle_x s' = ball_x s') /\
  (reward = -1 <-> done' = 1 /\ paddle_x s' <> ball_x s') /\
  (done' <> 1 -> reward = 0) /\
  (reward = -1 \/ reward = 0 \/ reward = 1).
Proof.
  intros _. cbv zeta.
  destruct (step_outputs rng params state action) as (_ & _ & -> & _).
  destruct (res_done _); cbn [Z.b2z];
    destruct (Z.eqb_spec (paddle_x (res_state (step rng params state action)))
                (ball_x (res_state (step rng params state action))));
    lia.
Qed.

(** C3. The termination condition.  For a state that satisfies the
    invariants and any action, the [done] returned by [step] is 1 exactly
    when the ball of the new state is in row 9, the paddle row; the columns
    of ball and paddle play no part.  The flag stored in the new state is
    the returned [done]. *)
Theorem step_done_iff rng params state action :
  state_invariants state ->
  let r := step rng params state action in
  (Z.b2z (res_done r) = 1 <-> ball_y (res_state r) = 9) /\
  done_flag (res_state r) = Z.b2z (res_done r).
Proof.
  intros (_ & _ & Hpy & Hby & Hflag). cbv zeta.
  destruct (step_outputs rng params state action) as (-> & -> & _).
  split; [|done].
  change (rows - 1) with 9 in Hpy.
  destruct Hby as [Hby0 Hby9]. change (rows - 1) with 9 in Hby9.
  destruct (step_state_flag rng params state action Hflag)
    as [[_ ->]|[_ ->]]; cbn [ball_y paddle_y]; rewrite ?Hpy; unwrap;
    destruct (Z.eqb_spec (ball_y state + 1) 9); cbn; lia.
Qed.

(** C5 (amended). [step] never resets the time.  For every state and
    action the time of the new state is the old time plus one in 32-bit
    arithmetic, also in the call that starts a new episode
    ([prev_done = 1]): it is the old time plus one for every time below
    the largest 32-bit integer, and wraps around to the smallest one from
    there.  The time is 0 in the state returned by [reset]. *)
Theorem step_time rng params state action :
  time_elapsed (res_state (step rng params state action))
    = time_elapsed state [+] 1 /\
  (int32 (time_elapsed state) -> time_elapsed state < int_max ->
   time_elapsed (res_state (step rng params state action))
     = time_elapsed state + 1) /\
  (time_elapsed state = int_max ->
   time_elapsed (res_state (step rng params state action)) = int_min) /\
  time_elapsed (reset rng params).2 = 0.
Proof.
  split; [done|]. split; [|split]; [| |done].
  - intros Ht Hmax. change (wrap (time_elapsed state + 1) = time_elapsed state + 1).
    unfold int32, int_min, int_max in *. unwrap. done.
  - intros Ht. change (wrap (time_elapsed state + 1) = int_min).
    by rewrite Ht.
Qed.

(** C10. An action outside {0, 1, 2} cannot move the paddle off the
    board.  For a state with [0 <= paddle_x < 5] and [prev_done = 0], and
    any integer as action, the new [paddle_x] is between 0 and 4: the
    moved paddle is clipped to [[0, columns - 1]] before the blend. *)
Theorem step_paddle_bound rng params state action :
  0 <= paddle_x state < columns ->
  done_flag state = 0 ->
  0 <= paddle_x (res_state (step rng params state action)) <= columns - 1.
Proof.
  intros _ Hd. rewrite step_state_running by done. cbn [paddle_x].
  change (columns - 1) with 4. apply clip_range. lia.
Qed.

Lemma reset_episode_invariants rng params :
  episode_invariants (reset rng params).2.
Proof.
  rewrite reset_state. pose proof (sample_column_range rng).
  unfold episode_invariants, state_invariants, columns, rows. cbn. lia.
Qed.

(** [step] keeps the invariants of an episode, for any integer as
    action. *)
Lemma step_episode_invariants rng params state action :
  episode_invariants state ->
  episode_invariants (res_state (step rng params state action)).
Proof.
  unfold episode_invariants, state_invariants, columns, rows.
  intros ((Hbx & Hpx & Hpy & Hby & Hflag) & Hdone).
  pose proof (sample_column_range rng).
  pose proof (clip_range (wrap (paddle_x state + wrap (action - 1))) 0 4).
  destruct (step_state_flag rng params state action Hflag)
    as [[Hd ->]|[Hd ->]]; cbn -[wrap]; [|lia]. unwrap.
  destruct (Z.eqb_spec (ball_y state + 1) (paddle_y state)); cbn; lia.
Qed.

(** C4 (amended). The state returned by [reset] satisfies the invariants
    of an episode: the five state invariants ([0 <= ball_x < 5],
    [0 <= paddle_x < 5], [paddle_y = 9], [0 <= ball_y <= 9], done flag 0 or
    1) and the done flag is 1 exactly when [ball_y = 9].  [step], from a
    state that satisfies the invariants of an episode and with an action
    in {0, 1, 2}, returns a state that satisfies them.  Hence the five
    state invariants hold for every state reachable from [reset] by any
    sequence of steps. *)
Theorem reachable_state_invariants :
  (forall rng params, episode_invariants (reset rng params).2) /\
  (forall rng params state action,
     episode_invariants state -> valid_action action ->
     episode_invariants (res_state (step rng params state action))) /\
  (forall state, reachable state -> state_invariants state).
Proof.
  split; [exact reset_episode_invariants|].
  split; [intros; by apply step_episode_invariants|].
  intros state Hreach.
  enough (episode_invariants state) as [? _] by done.
  induction Hreach as [rng params|rng params state action _ IH].
  - apply reset_episode_invariants.
  - by apply step_episode_invariants.
Qed.

End CatchProperties.

(** ** Catch: the observation *)

Section ObservationProperties.
Import Catch.

Lemma axis_index_inside size i :
  0 <= i < Z.of_nat size -> axis_index size i = Some (Z.to_nat i).
Proof.
  intros Hi. unfold axis_index.
  destruct (Z.ltb_spec i 0); [lia|].
  destruct (Z.leb_spec 0 i); [|lia].
  destruct (Z.ltb_spec i (Z.of_nat size)); [done|lia].
Qed.

Lemma zeros_shape r c : board_shape (zeros r c) (Z.to_nat r) (Z.to_nat c).
Proof.
  unfold zeros. split; [by rewrite length_replicate|].
  apply Forall_replicate. by rewrite length_replicate.
Qed.

Lemma cell_zeros r c i j :
  (i < Z.to_nat r)%nat -> (j < Z.to_nat c)%nat ->
  cell (zeros r c) i j = Some 0.
Proof.
  intros Hi Hj. unfold cell, zeros.
  rewrite lookup_replicate_2 by done. cbn.
  by rewrite lookup_replicate_2.
Qed.

(** Inside the board, [index_update] is the update of one cell of one
    row. *)
Lemma index_update_inside board nr nc r c v :
  board_shape board nr nc ->
  0 <= r < Z.of_nat nr -> 0 <= c < Z.of_nat nc ->
  exists row, board !! Z.to_nat r = Some row /\ length row = nc /\
    index_update board r c v =
      <[Z.to_nat r := <[Z.to_nat c := v]> row]> board.
Proof.
  intros [Hlen Hrows] Hr Hc. unfold index_update.
  rewrite axis_index_inside by lia.
  destruct (lookup_lt_is_Some_2 board (Z.to_nat r)) as [row Hrow]; [lia|].
  assert (length row = nc) as Hrowlen
    by (by eapply (proj1 (Forall_lookup _ _) Hrows)).
  exists row. rewrite Hrow, axis_index_inside by lia. done.
Qed.

Lemma index_update_shape board nr nc r c v :
  board_shape board nr nc ->
  0 <= r < Z.of_nat nr -> 0 <= c < Z.of_nat nc ->
  board_shape (index_update board r c v) nr nc.
Proof.
  intros Hshape Hr Hc.
  destruct (index_update_inside board nr nc r c v) as (row & Hrow & Hl & ->);
    [done..|].
  destruct Hshape as [Hlen Hrows].
  split; [by rewrite length_insert|].
  apply Forall_insert; [done|]. by rewrite length_insert.
Qed.

Lemma cell_index_update board nr nc r c v i j :
  board_shape board nr nc ->
  0 <= r < Z.of_nat nr -> 0 <= c < Z.of_nat nc ->
  cell (index_update board r c v) i j =
    if decide (i = Z.to_nat r /\ j = Z.to_nat c) then Some v
    else cell board i j.
Proof.
  intros Hshape Hr Hc.
  destruct (index_update_inside board nr nc r c v) as (row & Hrow & Hl & ->);
    [done..|].
  unfold cell. destruct (decide (i = Z.to_nat r)) as [->|Hi].
  - rewrite list_lookup_insert_eq by (by eapply lookup_lt_Some).
    rewrite Hrow. cbn.
    destruct (decide (j = Z.to_nat c)) as [->|Hj].
    + rewrite decide_True by done. apply list_lookup_insert_eq. lia.
    + rewrite decide_False by tauto. by apply list_lookup_insert_ne.
  - rewrite list_lookup_insert_ne by done.
    by rewrite decide_False by tauto.
Qed.

(** The number of set cells, for every position of ball and paddle that
    the invariants allow. *)
Lemma count_ones_table :
  Forall (fun bx => Forall (fun by_ => Forall (fun px =>
    count_ones (get_obs (mkState bx by_ px 9 0 0) params_catch) =
      if (by_ =? 9) && (bx =? px) then 1%nat else 2%nat)
    (seqZ 0 5)) (seqZ 0 10)) (seqZ 0 5).
Proof. compute_done. Qed.

Lemma count_ones_get_obs state params :
  state_invariants state ->
  count_ones (get_obs state params) =
    if (ball_y state =? paddle_y state) && (ball_x state =? paddle_x state)
    then 1%nat else 2%nat.
Proof.
  destruct state as [bx by_ px py t d].
  unfold state_invariants, columns, rows. cbn.
  intros (Hbx & Hpx & -> & Hby & _).
  assert (bx ∈ seqZ 0 5) as Hbx' by (apply elem_of_seqZ; lia).
  assert (by_ ∈ seqZ 0 10) as Hby' by (apply elem_of_seqZ; lia).
  assert (px ∈ seqZ 0 5) as Hpx' by (apply elem_of_seqZ; lia).
  pose proof count_ones_table as Htable.
  rewrite Forall_forall in Htable. specialize (Htable _ Hbx').
  rewrite Forall_forall in Htable. specialize (Htable _ Hby').
  rewrite Forall_forall in Htable. exact (Htable _ Hpx').
Qed.

(** C9 (amended). For a state that satisfies the invariants, the
    observation is a grid of 10 rows of 5 cells; the cell at
    [(ball_y, ball_x)] and the cell at [(paddle_y, paddle_x)] hold 1 and
    every other cell holds 0.  Exactly two cells are set when the ball and
    the paddle are in different cells, and exactly one when they are in
    the same cell (the ball is caught: [ball_y = 9] and
    [ball_x = paddle_x]). *)
Theorem get_obs_cells state params :
  state_invariants state ->
  let board := get_obs state params in
  board_shape board 10 5 /\
  (forall r c, 0 <= r < rows -> 0 <= c < columns ->
     cell board (Z.to_nat r) (Z.to_nat c) =
       Some (if decide (occupied state r c) then 1 else 0)) /\
  count_ones board =
    if decide (ball_y state = paddle_y state /\ ball_x state = paddle_x state)
    then 1%nat else 2%nat.
Proof.
  intros Hinv. pose proof Hinv as (Hbx & Hpx & Hpy & Hby & _).
  unfold rows, columns in *. cbv zeta.
  assert (board_shape (zeros 10 5) 10 5) as Hz by apply zeros_shape.
  assert (board_shape
            (index_update (zeros 10 5) (ball_y state) (ball_x state) 1) 10 5)
    as Hb by (apply index_update_shape; [done|lia..]).
  split; [|split].
  - apply index_update_shape; [done|lia..].
  - intros r c Hr Hc. unfold get_obs, rows, columns.
    rewrite (cell_index_update _ 10 5), (cell_index_update _ 10 5)
      by (done || lia).
    rewrite cell_zeros by lia. unfold occupied.
    repeat case_decide; try done; exfalso; lia.
  - rewrite count_ones_get_obs by done.
    destruct (Z.eqb_spec (ball_y state) (paddle_y state));
      destruct (Z.eqb_spec (ball_x state) (paddle_x state));
      cbn; case_decide; done || tauto.
Qed.

End ObservationProperties.

(** ** Spaces *)

Section SpacesProperties.
Import Spaces.
Context {PRNGKey : Type} `{!JaxRandom PRNGKey}.

Lemma Discrete_contains_int n z :
  Discrete_contains (mkDiscrete n) (VInt z) = Ok true <-> 0 <= z < n.
Proof.
  cbn. destruct (Z.geb_spec z 0); destruct (Z.ltb_spec z n); cbn;
    split; intros; (congruence || lia).
Qed.

(** C6 (amended). The bound of the discrete sampler.  For [n] categories
    with [2 <= n <= 2^31] and every seed, [Discrete(n).sample] returns an
    integer between 0 and [n - 2]: the exclusive upper bound given to the
    sampler is [n - 1], so the top category [n - 1] is never drawn,
    although [Discrete(n).contains] accepts every integer from 0 to
    [n - 1].  For [n > 2^31] the bound [n - 1] is no 32-bit integer and
    [sample] raises an [OverflowError]. *)
Theorem Discrete_sample_range (n : Z) (rng : PRNGKey) :
  (2 <= n <= 2 ^ 31 ->
   Discrete_init n = Ok (mkDiscrete n) /\
   (exists z, Discrete_sample (mkDiscrete n) rng = Ok (VInt z) /\
      0 <= z <= n - 2 /\ z <> n - 1) /\
   (forall x, 0 <= x <= n - 1 ->
      Discrete_contains (mkDiscrete n) (VInt x) = Ok true)) /\
  (2 ^ 31 < n -> Discrete_sample (mkDiscrete n) rng = Raise OverflowError).
Proof.
  split.
  - intros Hn. split; [|split].
    + unfold Discrete_init. by destruct (Z.leb_spec 0 n); [|lia].
    + exists (randint rng 0 (n - 1)).
      assert (int32 (n - 1)) as Hmax by (unfold int32, int_min, int_max; lia).
      unfold Discrete_sample. cbn [num_categories].
      rewrite (proj2 (int32_is_int32 _) Hmax). split; [done|].
      pose proof (randint_range rng 0 (n - 1)).
      unfold int32, int_min, int_max in *. lia.
    + intros x Hx. apply Discrete_contains_int. lia.
  - intros Hn. unfold Discrete_sample. cbn [num_categories].
    destruct (is_int32 (n - 1)) eqn:Hmax; [|done].
    apply int32_is_int32 in Hmax. unfold int32, int_max in Hmax. lia.
Qed.

(** The loop of the two [contains] of the composite spaces: it adds
    [1 - test a] for every entry [a]. *)
Section Loop.
Context {A : Type} (test : A -> result bool).

Local Abbreviation count_body :=
  (fun (acc : result Z) (a : A) =>
     out_of_space ← acc;
     c ← test a;
     mret (out_of_space + (1 - Z.b2z c))).

Lemma count_loop_raise e l : foldl count_body (Raise e) l = Raise e.
Proof. induction l as [|a l IH]; [done|]. cbn. exact IH. Qed.

(** The loop counts the entries that fail the test, and stops with the
    exception of the first entry whose test raises one. *)
Lemma count_loop l n :
  match foldl count_body (Ok n) l with
  | Ok r =>
      n <= r /\
      (r = n <-> Forall (fun a => test a = Ok true) l) /\
      Forall (fun a => exists c, test a = Ok c) l
  | Raise e => Exists (fun a => test a = Raise e) l
  end.
Proof.
  revert n. induction l as [|a l IH]; intros n.
  - cbn. split; [lia|]. split; [|done]. split; [done|lia].
  - cbn [foldl]. cbn [mbind result_bind].
    destruct (test a) as [c|e] eqn:Hc.
    + cbn [mret result_ret]. specialize (IH (n + (1 - Z.b2z c))).
      destruct (foldl _ _ l) as [r|e].
      * destruct IH as (Hle & Hiff & Hall).
        split; [destruct c; cbn in *; lia|].
        split; [|constructor; eauto].
        rewrite Forall_cons, Hc, <- Hiff. destruct c; cbn in *.
        -- split; [intros ->; split; [done|lia]|intros [_ ->]; lia].
        -- split; [lia|]. intros [[=] _].
      * by apply Exists_cons_tl.
    + cbn [mbind result_bind]. rewrite count_loop_raise.
      by apply Exists_cons_hd.
Qed.

Lemma count_loop_zero l :
  (out_of_space ← foldl count_body (mret 0) l; mret (out_of_space =? 0))
    = Ok true
  <-> Forall (fun a => test a = Ok true) l.
Proof.
  pose proof (count_loop l 0) as Hloop.
  unfold mret at 1, result_ret at 1.
  destruct (foldl _ _ l) as [r|e]; cbn.
  - destruct Hloop as (_ & Hiff & _). rewrite <- Hiff.
    unfold mret, result_ret.
    destruct (Z.eqb_spec r 0); split; intros; (congruence || lia).
  - split; [done|]. intros Hall.
    apply Exists_exists in Hloop as (a & Ha & Hraise).
    rewrite Forall_forall in Hall. specialize (Hall a Ha). congruence.
Qed.

End Loop.

Section Composite.
Context {S : Type} `{!Space PRNGKey S}.

(** [Tuple.contains(x)] is true exactly when every space of the tuple
    contains [x] itself. *)
Lemma Tuple_contains_whole (spaces : list S) (x : value) :
  Tuple_contains (mkTuple spaces) x = Ok true <->
  Forall (fun s => contains s x = Ok true) spaces.
Proof. apply (count_loop_zero (fun s => contains s x)). Qed.

(** The test of one entry of [Dict.contains]: the space of the entry is
    asked about the component [x[k]]. *)
Local Abbreviation Dict_entry_test x :=
  (fun '((k, space) : dict_key * S) =>
     xk ← value_getitem x k; contains space xk).

Lemma Dict_contains_loop (spaces : list (dict_key * S)) (x : value) acc :
  foldl (fun acc '(k, space) =>
           out_of_space ← acc;
           xk ← value_getitem x k;
           c ← contains space xk;
           mret (out_of_space + (1 - Z.b2z c))) acc spaces
  = foldl (fun acc a =>
             out_of_space ← acc;
             c ← Dict_entry_test x a;
             mret (out_of_space + (1 - Z.b2z c))) acc spaces.
Proof.
  revert acc. induction spaces as [|[k space] spaces IH]; intros acc; [done|].
  cbn [foldl]. rewrite IH. f_equal.
  destruct acc as [n|e]; [|done]. cbn.
  by destruct (value_getitem x k).
Qed.

(** [Dict.contains(x)] is true exactly when every entry's space contains
    the component of [x] under the entry's key. *)
Lemma Dict_contains_componentwise (spaces : list (dict_key * S)) (x : value) :
  Dict_contains (mkDict spaces) x = Ok true <->
  Forall (fun '(k, space) =>
            exists xk, value_getitem x k = Ok xk /\ contains space xk = Ok true)
         spaces.
Proof.
  unfold Dict_contains. cbn [Dict_spaces]. rewrite Dict_contains_loop.
  rewrite (count_loop_zero (Dict_entry_test x)).
  apply Forall_iff. intros [k space].
  destruct (value_getitem x k) as [xk|e]; cbn.
  - split; [by eauto|]. by intros (? & [= <-] & ?).
  - split; [done|]. by intros (? & [=] & _).
Qed.

Lemma dict_getitem_app {A : Type} (pre l : list (dict_key * A)) k a :
  k ∉ pre.*1 -> dict_getitem (pre ++ (k, a) :: l) k = Ok a.
Proof.
  induction pre as [|[k' a'] pre IH]; cbn; intros Hk.
  - by rewrite decide_True.
  - apply not_elem_of_cons in Hk as [Hne Hk].
    rewrite decide_False by done. by apply IH.
Qed.

Lemma dict_setitem_fresh {A : Type} (d : list (dict_key * A)) k a :
  k ∉ d.*1 -> dict_setitem d k a = d ++ [(k, a)].
Proof.
  induction d as [|[k' a'] d IH]; cbn; intros Hk; [done|].
  apply not_elem_of_cons in Hk as [Hne Hk].
  rewrite decide_False by done. by rewrite IH.
Qed.

Lemma OrderedDict_app {A : Type} (d items : list (dict_key * A)) :
  NoDup (d ++ items).*1 ->
  fold_left (fun d '(k, a) => dict_setitem d k a) items d = d ++ items.
Proof.
  revert d. induction items as [|[k a] items IH]; intros d Hnd; cbn.
  - by rewrite app_nil_r.
  - rewrite dict_setitem_fresh.
    + rewrite IH; by rewrite <- app_assoc.
    + rewrite fmap_app in Hnd. apply NoDup_app in Hnd as (_ & Hdisj & _).
      intros Hk. apply (Hdisj k Hk). cbn. left.
Qed.

(** With distinct keys, [OrderedDict] keeps the items as they are. *)
Lemma OrderedDict_NoDup {A : Type} (items : list (dict_key * A)) :
  NoDup items.*1 -> OrderedDict items = items.
Proof. intros Hnd. unfold OrderedDict. by rewrite OrderedDict_app. Qed.

(** The comprehension of [Dict.sample], from any position of the
    dictionary on: the entry's space is found under the entry's key and
    sampled with the key at the entry's position. *)
Lemma Dict_sample_items (pre l : list (dict_key * S)) (kpre kl : list PRNGKey) :
  NoDup (pre ++ l).*1 -> length kpre = length pre -> length kl = length l ->
  mapM (fun '(i, k) =>
          space ← dict_getitem (pre ++ l) k;
          key ← key_getitem (kpre ++ kl) i;
          v ← sample space key;
          mret (k, v))
       (imap (fun i k => (length pre + i, k)%nat) l.*1)
  = mapM (fun '((k, space), key) => v ← sample space key; mret (k, v))
         (zip l kl).
Proof.
  revert pre kpre kl.
  induction l as [|[k space] l IH]; intros pre kpre kl Hnd Hpre Hkl; [done|].
  destruct kl as [|key kl]; [done|].
  assert (k ∉ pre.*1) as Hk.
  { rewrite fmap_app in Hnd. apply NoDup_app in Hnd as (_ & Hdisj & _).
    intros Hin. apply (Hdisj k Hin). cbn. left. }
  assert (key_getitem (kpre ++ key :: kl) (length pre + 0) = Ok key) as Hkey.
  { unfold key_getitem.
    rewrite lookup_app_r by lia.
    by replace (length pre + 0 - length kpre)%nat with 0%nat by lia. }
  cbn [fmap list_fmap fst zip zip_with]. rewrite imap_cons.
  cbn [mapM]. rewrite dict_getitem_app, Hkey by done.
  cbn [mbind result_bind].
  destruct (sample space key) as [v|e]; [|done].
  cbn [mbind result_bind mret result_ret].
  specialize (IH (pre ++ [(k, space)]) (kpre ++ [key]) kl).
  rewrite <- !app_assoc in IH. cbn [app] in IH.
  rewrite <- IH.
  - do 2 f_equal. apply imap_ext. intros i k' _. cbn. f_equal.
    rewrite length_app. cbn. lia.
  - done.
  - rewrite !length_app. cbn. lia.
  - cbn in Hkl. lia.
Qed.


Lemma mapM_Ok_length {A B : Type} (f : A -> result B) l vs :
  mapM f l = Ok vs -> length vs = length l.
Proof.
  revert vs. induction l as [|a l IH]; intros vs; cbn.
  - by intros [= <-].
  - destruct (f a) as [b|e]; [|done]. cbn.
    destruct (mapM f l) as [bs|e]; [|done]. cbn.
    intros [= <-]. cbn. f_equal. by apply IH.
Qed.

Lemma Dict_sample_zip (l : list (dict_key * S)) (kl : list PRNGKey) :
  mapM (fun '((k, space), key) => v ← sample space key; mret (k, v))
       (zip l kl)
  = zip l.*1 <$> mapM (fun '((k, space), key) => sample space key) (zip l kl).
Proof.
  revert kl. induction l as [|[k space] l IH]; intros [|key kl]; try done.
  cbn [zip zip_with mapM fmap list_fmap fst].
  destruct (sample space key) as [v|e]; [|done].
  cbn [mbind result_bind]. rewrite IH.
  by destruct (mapM _ (zip l kl)).
Qed.

(** [Dict.sample] delegates per entry: the result has the keys of the
    dictionary of spaces, in its order, and under the [i]-th key the
    sample of the [i]-th space drawn with the [i]-th key of the split.
    The exception of the first entry whose [sample] raises is raised. *)
Lemma Dict_sample_delegates (spaces : list (dict_key * S)) (rng : PRNGKey) :
  NoDup spaces.*1 ->
  Dict_sample (mkDict spaces) rng =
    (vs ← mapM (fun '((k, space), key) => sample space key)
               (zip spaces (split rng (length spaces)));
     mret (VDict (zip spaces.*1 vs))).
Proof.
  intros Hnd. unfold Dict_sample, Dict_num_spaces, enumerate.
  cbn [Dict_spaces].
  pose proof (Dict_sample_items [] spaces [] (split rng (length spaces))
                Hnd eq_refl (split_length _ _)) as Hitems.
  cbn [app length Nat.add] in Hitems. rewrite Hitems, Dict_sample_zip.
  match goal with |- _ = ?m ≫= _ => destruct m as [vs|e] eqn:Hvs end; [|done].
  cbn. unfold mret, result_ret. do 2 f_equal.
  apply OrderedDict_NoDup. rewrite fst_zip; [done|].
  apply mapM_Ok_length in Hvs. rewrite Hvs, length_zip, split_length.
  rewrite length_fmap. lia.
Qed.

(** [Tuple.sample] of a tuple with at least one space raises a
    [TypeError]: the first subscription [self.spaces[k]] has a space as
    subscript. *)
Lemma Tuple_sample_nonempty (space : S) (spaces : list S) (rng : PRNGKey) :
  Tuple_sample (mkTuple (space :: spaces)) rng = Raise TypeError.
Proof. done. Qed.

Lemma Tuple_sample_empty (rng : PRNGKey) :
  Tuple_sample (mkTuple (@nil S)) rng = Ok (VTuple []).
Proof. done. Qed.

End Composite.

(** C7 (the code differs). The claim: [Tuple.contains(x)] is true exactly
    when, for every index [i], the [i]-th space contains the [i]-th
    component of [x].  The code gives every space the whole of [x]: the
    result is true exactly when every space contains [x] itself.  For the
    tuple of spaces [Discrete(3), Discrete(3)] and the value [(1, 2)],
    whose components are contained in their spaces, the call raises a
    [TypeError]; it returns true for the integer 1, which is no tuple. *)
Theorem Tuple_contains_not_componentwise :
  (forall (S : Type) `(!Space PRNGKey S) (spaces : list S) (x : value),
     Tuple_contains (mkTuple spaces) x = Ok true <->
     Forall (fun s => contains s x = Ok true) spaces) /\
  Discrete_contains (mkDiscrete 3) (VInt 1) = Ok true /\
  Discrete_contains (mkDiscrete 3) (VInt 2) = Ok true /\
  Tuple_contains (mkTuple [mkDiscrete 3; mkDiscrete 3])
    (VTuple [VInt 1; VInt 2]) = Raise TypeError /\
  Tuple_contains (mkTuple [mkDiscrete 3; mkDiscrete 3]) (VInt 1) = Ok true.
Proof.
  split; [|done]. intros S ? spaces x. apply Tuple_contains_whole.
Qed.

(** C8 (the code differs). The claim: [Tuple.sample(seed)] returns the
    tuple of the samples of the spaces, the [i]-th drawn with the [i]-th
    sub-seed, and raises no error.  The code raises a [TypeError] for
    every tuple with at least one space, whatever the seed: it subscripts
    the sequence of spaces with a space.  For [Discrete(3), Discrete(3)]
    each space can be sampled with each sub-seed, and the call raises. *)
Theorem Tuple_sample_raises :
  (forall (S : Type) `(!Space PRNGKey S) (space : S) (spaces : list S)
          (rng : PRNGKey),
     Tuple_sample (mkTuple (space :: spaces)) rng = Raise TypeError) /\
  (forall (rng : PRNGKey),
     Forall (fun key => exists z, Discrete_sample (mkDiscrete 3) key = Ok (VInt z))
       (split rng 2) /\
     Tuple_sample (mkTuple [mkDiscrete 3; mkDiscrete 3]) rng = Raise TypeError).
Proof.
  split; [done|]. intros rng. split; [|done].
  apply Forall_forall. intros key _. by eexists.
Qed.

End SpacesProperties.

(** ** Catch: episodes *)

Section EpisodeProperties.
Import Catch.
Context {PRNGKey : Type} `{!JaxRandom PRNGKey}.
Implicit Types (rng : PRNGKey) (params : Params) (state : State) (action : Z).

Lemma run_snoc params state calls rng action :
  run params state (calls ++ [(rng, action)]) =
    res_state (step rng params (run params state calls) action).
Proof. unfold run. by rewrite foldl_app. Qed.

Lemma reachable_episode_invariants state :
  reachable state -> episode_invariants state.
Proof.
  induction 1 as [rng params|rng params state action _ IH].
  - apply reset_episode_invariants.
  - by apply step_episode_invariants.
Qed.

Lemma get_obs_shape state params :
  state_invariants state -> board_shape (get_obs state params) 10 5.
Proof.
  intros (Hbx & Hpx & Hpy & Hby & _). unfold rows, columns in *.
  unfold get_obs, rows, columns.
  apply index_update_shape; [|lia..].
  apply index_update_shape; [|lia..].
  apply zeros_shape.
Qed.

Lemma get_obs_cell state params r c :
  state_invariants state ->
  0 <= r < 10 -> 0 <= c < 5 ->
  cell (get_obs state params) (Z.to_nat r) (Z.to_nat c) =
    Some (if decide (occupied state r c) then 1 else 0).
Proof.
  intros (Hbx & Hpx & Hpy & Hby & _) Hr Hc. unfold rows, columns in *.
  assert (board_shape (zeros 10 5) 10 5) as Hz by apply zeros_shape.
  assert (board_shape
            (index_update (zeros 10 5) (ball_y state) (ball_x state) 1) 10 5)
    as Hb by (apply index_update_shape; [done|lia..]).
  unfold get_obs, rows, columns.
  rewrite (cell_index_update _ 10 5), (cell_index_update _ 10 5)
    by (done || lia).
  rewrite cell_zeros by lia. unfold occupied.
  repeat case_decide; try done; exfalso; lia.
Qed.

(** X1. What [reset] returns.  For every seed the state has the ball in
    the top row at the sampled column, which is on the board, the paddle
    in the middle of the bottom row, time 0 and done flag 0; the
    observation is the 10 x 5 grid of that state, with exactly two set
    cells: the ball at row 0 and the paddle at row 9, column 2. *)
Theorem reset_postcondition rng params :
  let obs := (reset rng params).1 in
  let state := (reset rng params).2 in
  let column := randint rng 0 columns in
  state = mkState column 0 2 9 0 0 /\
  0 <= column < columns /\
  obs = get_obs state params /\
  board_shape obs 10 5 /\
  (forall r c, 0 <= r < rows -> 0 <= c < columns ->
     cell obs (Z.to_nat r) (Z.to_nat c) =
       Some (if decide ((r = 0 /\ c = column) \/ (r = 9 /\ c = 2))
             then 1 else 0)) /\
  count_ones obs = 2%nat.
Proof.
  cbv zeta. pose proof (sample_column_range rng) as Hcol.
  pose proof (reset_episode_invariants rng params) as [Hinv _].
  change ((reset rng params).1) with (get_obs (reset rng params).2 params).
  rewrite reset_state in *. change columns with 5. change rows with 10.
  split; [done|]. split; [done|]. split; [done|].
  split; [by apply get_obs_shape|]. split.
  - intros r c Hr Hc. rewrite get_obs_cell by done.
    unfold occupied. cbn. repeat case_decide; done || tauto.
  - by rewrite count_ones_get_obs.
Qed.

(** X2. The step after the end of an episode is a reset.  When the done
    flag of the state passed in is 1, [step] returns the observation that
    [reset] returns for the same seed, and the state of [reset] with the
    time passed in plus one in 32-bit arithmetic (the time plus one,
    unless the time is the largest 32-bit integer); the reward is 0 and
    [done] is false.  The positions passed in and the action have no
    effect. *)
Theorem step_after_done_is_reset rng params state action :
  done_flag state = 1 ->
  let r := step rng params state action in
  let fresh := (reset rng params).2 in
  res_obs r = (reset rng params).1 /\
  res_state r =
    mkState (ball_x fresh) (ball_y fresh) (paddle_x fresh) (paddle_y fresh)
      (time_elapsed state [+] 1) 0 /\
  (int32 (time_elapsed state) -> time_elapsed state < int_max ->
   time_elapsed (res_state r) = time_elapsed state + 1) /\
  res_reward r = 0 /\
  res_done r = false.
Proof.
  intros Hd. cbv zeta.
  destruct (step_outputs rng params state action)
    as (Hdone & _ & Hreward & Hobs & _).
  rewrite Hreward, Hobs, Hdone.
  rewrite step_state_done by done. rewrite reset_state. cbn -[wrap].
  split; [done|]. split; [done|]. split; [|done].
  intros Ht Hmax. unfold int32, int_min, int_max in *. unwrap. done.
Qed.

Lemma clock_next n : 0 <= n ->
  (n mod 10 = 9 -> (n + 1) mod 10 = 0) /\
  (n mod 10 <> 9 -> (n + 1) mod 10 = n mod 10 + 1).
Proof.
  intros Hn. pose proof (Z.mod_pos_bound n 10).
  pose proof (Z.div_mod n 10). pose proof (Z.div_mod (n + 1) 10).
  pose proof (Z.mod_pos_bound (n + 1) 10). lia.
Qed.

(** The clock of the episodes, after any number of calls. *)
Lemma run_clock rng params (calls : list (PRNGKey * Z)) :
  let s := run params (reset rng params).2 calls in
  let n := Z.of_nat (length calls) in
  time_elapsed s = wrap n /\
  ball_y s = n mod 10 /\
  done_flag s = Z.b2z (n mod 10 =? 9) /\
  paddle_y s = 9.
Proof.
  cbv zeta. induction calls as [|[rng' action] calls IH] using rev_ind.
  - rewrite reset_state. done.
  - rewrite run_snoc, length_app. cbn [length].
    replace (Z.of_nat (length calls + 1)) with (Z.of_nat (length calls) + 1)
      by lia.
    set (n := Z.of_nat (length calls)) in *.
    set (s := run params (reset rng params).2 calls) in *.
    destruct IH as (Htime & Hby & Hdone & Hpy).
    destruct (clock_next n ltac:(lia)) as [Hlast Hnext].
    pose proof (Z.mod_pos_bound n 10 ltac:(lia)) as Hmod.
    assert (done_flag s = 0 \/ done_flag s = 1) as Hflag
      by (rewrite Hdone; destruct (n mod 10 =? 9); cbn; lia).
    destruct (step_state_flag rng' params s action Hflag)
      as [[Hd ->]|[Hd ->]]; cbn [time_elapsed ball_y done_flag paddle_y];
      rewrite Hd in Hdone; destruct (Z.eqb_spec (n mod 10) 9) as [H9|H9];
      try discriminate Hdone; rewrite Htime, wrap_add_l.
    + rewrite (Hnext H9), Hby, Hpy. unwrap. done.
    + rewrite (Hlast H9). done.
Qed.

(** X3. The clock of the episodes.  Start from the state of [reset] and
    call [step] any number [n] of times, with any seeds and any integers
    as actions, never calling [reset] again.  Then the time of the state
    is [n] as a 32-bit integer ([n] itself for [n < 2^31]), the ball is in
    row [n mod 10], and the done flag is 1 exactly when [n mod 10 = 9]:
    every episode ends after exactly 9 steps, the tenth step starts the
    next one, and no step sets the time back to 0. *)
Theorem run_episode_clock rng params (calls : list (PRNGKey * Z)) :
  let s := run params (reset rng params).2 calls in
  let n := Z.of_nat (length calls) in
  time_elapsed s = wrap n /\
  (n <= int_max -> time_elapsed s = n) /\
  ball_y s = n mod 10 /\
  done_flag s = Z.b2z (n mod 10 =? 9) /\
  paddle_y s = 9.
Proof.
  cbv zeta. destruct (run_clock rng params calls) as (Htime & Hrest).
  split; [done|]. split; [|done].
  intros Hn. rewrite Htime. unfold int_max in Hn. unwrap. done.
Qed.

(** X4. The observation shows a catch.  For a state that satisfies the
    invariants of an episode and any action, the observation returned by
    [step] is a 10 x 5 grid; it has exactly one set cell when the reward
    is 1 (ball and paddle in the same cell) and exactly two set cells
    otherwise. *)
Theorem step_obs_shows_catch rng params state action :
  episode_invariants state ->
  let r := step rng params state action in
  board_shape (res_obs r) 10 5 /\
  (res_reward r = 1 -> count_ones (res_obs r) = 1%nat) /\
  (res_reward r <> 1 -> count_ones (res_obs r) = 2%nat).
Proof.
  intros Hinv. cbv zeta.
  destruct (step_episode_invariants rng params state action Hinv)
    as [Hinv' _].
  destruct (step_outputs rng params state action)
    as (Hdone & _ & Hreward & Hobs & _).
  rewrite Hreward, Hobs, Hdone.
  split; [by apply get_obs_shape|].
  rewrite count_ones_get_obs by done.
  rewrite (Z.eqb_sym (paddle_x _)).
  destruct (_ =? paddle_y _); destruct (_ =? paddle_x _); cbn; split; done.
Qed.

(** X5. The walls stop the paddle.  For a state with the paddle on the
    board and done flag 0: the action 1 leaves the paddle where it is, the
    action 0 moves it one column to the left unless it is in column 0,
    and the action 2 moves it one column to the right unless it is in
    column 4.  So the paddle moves by at most one column. *)
Theorem step_paddle_move rng params state action :
  0 <= paddle_x state < columns ->
  done_flag state = 0 ->
  valid_action action ->
  let px := paddle_x state in
  let px' := paddle_x (res_state (step rng params state action)) in
  (action = 0 -> px' = Z.max 0 (px - 1)) /\
  (action = 1 -> px' = px) /\
  (action = 2 -> px' = Z.min (columns - 1) (px + 1)) /\
  -1 <= px' - px <= 1.
Proof.
  intros Hpx Hd Hact. cbv zeta. rewrite step_state_running by done.
  cbn [paddle_x]. unfold columns, valid_action in *. unwrap.
  unfold clip. lia.
Qed.

(** All that [step] returns for a state on the board whose episode has
    not ended, and an action in {0, 1, 2}: no operation wraps around. *)
Lemma step_result_running rng params state action :
  done_flag state = 0 ->
  0 <= ball_x state < 5 -> 0 <= ball_y state < 9 ->
  0 <= paddle_x state < 5 -> paddle_y state = 9 ->
  0 <= time_elapsed state < 9 ->
  valid_action action ->
  step rng params state action =
    let ball_y' := ball_y state + 1 in
    let paddle_x' := clip (paddle_x state + (action - 1)) 0 4 in
    let done := ball_y' =? 9 in
    let state' :=
      mkState (ball_x state) ball_y' paddle_x' 9
        (time_elapsed state + 1) (Z.b2z done) in
    mkStepResult (get_obs state' params) state'
      (Z.b2z done * (if paddle_x' =? ball_x state then 1 else -1)) done [].
Proof.
  intros Hd Hbx Hby Hpx Hpy Ht Hact.
  pose proof (step_state_running rng params state action Hd) as Hstate.
  destruct (step_outputs rng params state action)
    as (Hdone & _ & Hreward & Hobs & Hinfo).
  destruct (step rng params state action) as [obs state' reward done info].
  cbn [res_obs res_state res_reward res_done res_info] in *.
  unfold valid_action in Hact. rewrite Hpy in Hstate.
  revert Hstate. unwrap. cbv zeta. intros ->.
  cbn [ball_x ball_y paddle_x paddle_y] in *. by subst.
Qed.

Lemma trace_cons params state rng action (calls : list (PRNGKey * Z)) :
  trace params state ((rng, action) :: calls) =
    step rng params state action
    :: trace params (res_state (step rng params state action)) calls.
Proof. reflexivity. Qed.

Lemma trace_lookup params state (calls : list (PRNGKey * Z)) i r :
  trace params state calls !! i = Some r ->
  exists rng action,
    calls !! i = Some (rng, action) /\
    r = step rng params (run params state (take i calls)) action.
Proof.
  revert state i.
  induction calls as [|[rng action] calls IH]; intros state i; [done|].
  destruct i as [|i]; cbn.
  - intros [= <-]. by exists rng, action.
  - intros Hr. by apply IH in Hr.
Qed.

(** X7. When the rewards are paid.  Start from the state of [reset] and
    call [step] again and again, with any seeds and any integers as
    actions.  The call number [k] (the first call has number 1) returns
    [done = True] exactly when [k mod 10 = 9], and a reward other than 0
    exactly then; the time of the state it returns is [k] as a 32-bit
    integer, which is [k] itself for [k < 2^31]. *)
Theorem trace_pay_schedule rng params (calls : list (PRNGKey * Z)) i r :
  trace params (reset rng params).2 calls !! i = Some r ->
  let k := Z.of_nat i + 1 in
  (res_done r = true <-> k mod 10 = 9) /\
  (res_reward r <> 0 <-> k mod 10 = 9) /\
  time_elapsed (res_state r) = wrap k /\
  (k <= int_max -> time_elapsed (res_state r) = k).
Proof.
  intros Hr. cbv zeta.
  apply trace_lookup in Hr as (rng' & action & Hcall & ->).
  pose proof (run_clock rng params (take i calls ++ [(rng', action)]))
    as Hclock.
  rewrite run_snoc in Hclock. cbv zeta in Hclock.
  rewrite length_app, length_take in Hclock. cbn [length] in Hclock.
  apply lookup_lt_Some in Hcall.
  replace (Z.of_nat (i `min` length calls + 1)) with (Z.of_nat i + 1)
    in Hclock by lia.
  destruct Hclock as (Htime & _ & Hflag & _).
  destruct (step_outputs rng' params (run params (reset rng params).2
                                        (take i calls)) action)
    as (_ & Hdone & Hreward & _).
  rewrite Hreward. rewrite Hdone in Hflag.
  split; [|split; [|split; [done|]]].
  - destruct (res_done _), (Z.eqb_spec ((Z.of_nat i + 1) mod 10) 9);
      cbn in Hflag; split; intros; done || lia.
  - destruct (res_done _), (Z.eqb_spec ((Z.of_nat i + 1) mod 10) 9),
      (_ =? ball_x _); cbn in Hflag |- *; split; intros; done || lia.
  - intros Hk. rewrite Htime. unfold int_max in Hk. unwrap. done.
Qed.

(** X6. Every ball can be caught.  For every seed of [reset] there are
    nine actions in {0, 1, 2} such that, whatever the seeds of the nine
    calls of [step], the rewards are 0 eight times and then 1: the ninth
    call ends the episode with the paddle in the cell of the ball. *)
Theorem every_ball_can_be_caught rng params :
  exists actions : list Z,
    length actions = 9%nat /\
    Forall valid_action actions /\
    forall seeds : list PRNGKey,
      length seeds = 9%nat ->
      res_reward <$>
        trace params (reset rng params).2 (zip seeds actions)
      = [0; 0; 0; 0; 0; 0; 0; 0; 1].
Proof.
  pose proof (sample_column_range rng) as Hcol.
  assert (exists a1 a2,
             valid_action a1 /\ valid_action a2 /\
             clip (clip (2 + (a1 - 1)) 0 4 + (a2 - 1)) 0 4 = randint rng 0 5)
    as (a1 & a2 & Ha1 & Ha2 & Hcatch).
  { unfold valid_action, clip.
    destruct (decide (randint rng 0 5 = 0)); [exists 0, 0; lia|].
    destruct (decide (randint rng 0 5 = 1)); [exists 0, 1; lia|].
    destruct (decide (randint rng 0 5 = 2)); [exists 1, 1; lia|].
    destruct (decide (randint rng 0 5 = 3)); [exists 2, 1; lia|].
    exists 2, 2; lia. }
  assert (valid_action 1) as Hstay by (right; by left).
  assert (clip (randint rng 0 5 + (1 - 1)) 0 4 = randint rng 0 5) as Hkeep
    by (unfold clip; lia).
  exists [a1; a2; 1; 1; 1; 1; 1; 1; 1].
  split; [done|]. split; [by repeat apply Forall_cons_2|].
  intros seeds Hlen.
  do 9 (destruct seeds as [|? seeds]; [done|]).
  destruct seeds; [|done].
  cbn [zip zip_with]. rewrite reset_state.
  unfold valid_action in Ha1, Ha2.
  repeat (rewrite trace_cons;
          rewrite step_result_running
            by (cbn [ball_x ball_y paddle_x paddle_y time_elapsed done_flag];
                first [exact eq_refl | unfold clip, valid_action; lia]);
          cbv zeta;
          cbn [res_state res_reward ball_x ball_y paddle_x paddle_y
               time_elapsed done_flag fmap list_fmap];
          rewrite ?Hcatch, ?Hkeep).
  rewrite Z.eqb_refl. reflexivity.
Qed.

(** With the ball in the paddle row, the observation is the same when
    ball and paddle change columns. *)
Lemma get_obs_swap_table :
  Forall (fun a => Forall (fun b =>
    get_obs (mkState a 9 b 9 0 0) params_catch =
    get_obs (mkState b 9 a 9 0 0) params_catch)
    (seqZ 0 5)) (seqZ 0 5).
Proof. compute_done. Qed.

(** X14. What the observation tells.  For two states that satisfy the
    invariants and have the ball above the paddle row, equal observations
    mean equal positions of ball and paddle: the observation determines
    [ball_x], [ball_y] and [paddle_x].  With the ball in the paddle row
    it does not: the state with the ball in column [a] and the paddle in
    column [b] has the observation of the state with the ball in column
    [b] and the paddle in column [a]. *)
Theorem get_obs_determines_positions :
  (forall s1 s2 params1 params2,
     state_invariants s1 -> state_invariants s2 ->
     ball_y s1 < 9 -> ball_y s2 < 9 ->
     get_obs s1 params1 = get_obs s2 params2 ->
     ball_x s1 = ball_x s2 /\ ball_y s1 = ball_y s2 /\
     paddle_x s1 = paddle_x s2) /\
  (forall a b t1 d1 t2 d2 params1 params2,
     0 <= a < columns -> 0 <= b < columns ->
     get_obs (mkState a 9 b 9 t1 d1) params1 =
     get_obs (mkState b 9 a 9 t2 d2) params2).
Proof.
  split.
  - intros s1 s2 params1 params2 Hinv1 Hinv2 Hy1 Hy2 Hobs.
    pose proof Hinv1 as (Hbx1 & Hpx1 & Hpy1 & Hby1 & _).
    pose proof Hinv2 as (Hbx2 & Hpx2 & Hpy2 & Hby2 & _).
    unfold rows, columns in *.
    assert (forall r c, 0 <= r < 10 -> 0 <= c < 5 ->
              occupied s1 r c -> occupied s2 r c) as Hocc.
    { intros r c Hr Hc Hin.
      pose proof (get_obs_cell s1 params1 r c Hinv1 Hr Hc) as Hcell1.
      pose proof (get_obs_cell s2 params2 r c Hinv2 Hr Hc) as Hcell2.
      rewrite Hobs, Hcell2 in Hcell1.
      rewrite (decide_True _ _ Hin) in Hcell1.
      by destruct (decide (occupied s2 r c)). }
    destruct (Hocc (ball_y s1) (ball_x s1)) as [[? ?]|[? ?]];
      [lia|lia|by left| |lia].
    destruct (Hocc (paddle_y s1) (paddle_x s1)) as [[? ?]|[? ?]];
      [lia|lia|by right|lia|]. done.
  - intros a b t1 d1 t2 d2 params1 params2 Ha Hb. unfold columns in *.
    assert (a ∈ seqZ 0 5) as Ha' by (apply elem_of_seqZ; lia).
    assert (b ∈ seqZ 0 5) as Hb' by (apply elem_of_seqZ; lia).
    pose proof get_obs_swap_table as Htable.
    rewrite Forall_forall in Htable. specialize (Htable _ Ha').
    rewrite Forall_forall in Htable. exact (Htable _ Hb').
Qed.

End EpisodeProperties.

(** ** Spaces: samples, members and exceptions *)

Section SpacesOutcomes.
Import Spaces.
Context {PRNGKey : Type} `{!JaxRandom PRNGKey}.

Lemma Discrete_sample_contained n (rng : PRNGKey) v :
  2 <= n ->
  Discrete_sample (mkDiscrete n) rng = Ok v ->
  Discrete_contains (mkDiscrete n) v = Ok true.
Proof.
  intros Hn. unfold Discrete_sample. cbn [num_categories].
  destruct (is_int32 (n - 1)) eqn:Hmax; [|done].
  apply int32_is_int32 in Hmax. intros [= <-]. apply Discrete_contains_int.
  pose proof (randint_range rng 0 (n - 1)).
  unfold int32, int_min, int_max in *. lia.
Qed.


(** The outcome of the loop of the two [contains] followed by the test
    [out_of_space == 0]. *)
Lemma count_loop_outcome {A : Type} (test : A -> result bool) l :
  match (out_of_space ←
           foldl (fun acc a =>
                    out_of_space ← acc;
                    c ← test a;
                    mret (out_of_space + (1 - Z.b2z c))) (mret 0) l;
         mret (out_of_space =? 0)) with
  | Ok b =>
      Forall (fun a => exists c, test a = Ok c) l /\
      (b = true <-> Forall (fun a => test a = Ok true) l)
  | Raise e => Exists (fun a => test a = Raise e) l
  end.
Proof.
  pose proof (count_loop test l 0) as Hloop.
  unfold mret at 1, result_ret at 1.
  destruct (foldl _ _ l) as [r|e]; cbn; [|done].
  destruct Hloop as (_ & Hiff & Hall). split; [done|].
  rewrite <- Hiff. apply Z.eqb_eq.
Qed.

Lemma Forall_tested_cases {A : Type} (test : A -> result bool) l :
  Forall (fun a => exists c, test a = Ok c) l ->
  Forall (fun a => test a = Ok true) l \/
  Exists (fun a => test a = Ok false) l.
Proof.
  induction 1 as [|a l [[|] Hc] _ [IH|IH]].
  - by left.
  - left. by constructor.
  - right. by apply Exists_cons_tl.
  - right. by apply Exists_cons_hd.
  - right. by apply Exists_cons_hd.
Qed.

Lemma dict_getitem_Ok {A : Type} (d : list (dict_key * A)) k a :
  dict_getitem d k = Ok a -> k ∈ d.*1.
Proof.
  induction d as [|[k' a'] d IH]; cbn; [done|].
  destruct (decide (k' = k)) as [->|Hne]; [left|].
  intros Hk. right. by apply IH.
Qed.

Lemma dict_getitem_zip {A : Type} (ks : list dict_key) (vs : list A) i k v :
  NoDup ks -> ks !! i = Some k -> vs !! i = Some v ->
  dict_getitem (zip ks vs) k = Ok v.
Proof.
  revert vs i. induction ks as [|k' ks IH]; intros vs i Hnd Hk Hv; [done|].
  destruct vs as [|v' vs]; [by destruct i|].
  apply NoDup_cons in Hnd as [Hnotin Hnd]. cbn [zip zip_with dict_getitem].
  destruct i as [|i]; cbn in Hk, Hv.
  - injection Hk as ->. injection Hv as ->. by rewrite decide_True.
  - destruct (decide (k' = k)) as [->|Hne].
    + exfalso. apply Hnotin. by eapply list_elem_of_lookup_2.
    + by eapply IH.
Qed.

Section Composite.
Context {S : Type} `{!Space PRNGKey S}.

(** The test of one entry of [Dict.contains]. *)
Local Abbreviation entry_test x :=
  (fun '((k, space) : dict_key * S) =>
     xk ← value_getitem x k; contains space xk).

Lemma entry_test_Ok x k (space : S) c :
  entry_test x (k, space) = Ok c <->
  exists xk, value_getitem x k = Ok xk /\ contains space xk = Ok c.
Proof.
  cbn. destruct (value_getitem x k) as [xk|e]; cbn.
  - split; [by eauto|]. by intros (? & [= <-] & ?).
  - split; [done|]. by intros (? & [=] & _).
Qed.

Lemma Dict_contains_result (spaces : list (dict_key * S)) (x : value) :
  match Dict_contains (mkDict spaces) x with
  | Ok b =>
      Forall (fun a => exists c, entry_test x a = Ok c) spaces /\
      (b = true <-> Forall (fun a => entry_test x a = Ok true) spaces)
  | Raise e => Exists (fun a => entry_test x a = Raise e) spaces
  end.
Proof.
  unfold Dict_contains. cbn [Dict_spaces]. rewrite Dict_contains_loop.
  apply (count_loop_outcome (entry_test x)).
Qed.

(** X9. What [Dict.contains] returns.  It is true exactly when, for every
    entry of the dictionary of spaces, the value has a component under
    the entry's key and the entry's space contains it.  It is false only
    when every entry could be tested and the test of one of them is
    false: no entry is skipped once the result is known.  When it raises
    an exception, the subscription [x[k]] or the [contains] of some entry
    raises that exception. *)
Theorem Dict_contains_outcome (spaces : list (dict_key * S)) (x : value) :
  (Dict_contains (mkDict spaces) x = Ok true <->
   Forall (fun '(k, space) =>
             exists xk, value_getitem x k = Ok xk /\
                        contains space xk = Ok true) spaces) /\
  (Dict_contains (mkDict spaces) x = Ok false ->
   Forall (fun '(k, space) =>
             exists xk c, value_getitem x k = Ok xk /\
                          contains space xk = Ok c) spaces /\
   Exists (fun '(k, space) =>
             exists xk, value_getitem x k = Ok xk /\
                        contains space xk = Ok false) spaces) /\
  (forall e, Dict_contains (mkDict spaces) x = Raise e ->
   Exists (fun '(k, space) =>
             value_getitem x k = Raise e \/
             exists xk, value_getitem x k = Ok xk /\
                        contains space xk = Raise e) spaces).
Proof.
  pose proof (Dict_contains_result spaces x) as Hres.
  destruct (Dict_contains (mkDict spaces) x) as [b|e].
  - destruct Hres as [Hall Htrue]. split; [|split]; [| |done].
    + split.
      * intros [= ->]. eapply Forall_impl; [by apply Htrue|].
        intros [k space] Hks. by apply entry_test_Ok.
      * intros H. f_equal. apply Htrue.
        eapply Forall_impl; [exact H|].
        intros [k space] Hks. by apply entry_test_Ok.
    + intros [= ->]. split.
      * eapply Forall_impl; [exact Hall|].
        intros [k space] [c Hc]. apply entry_test_Ok in Hc as (xk & ? & ?).
        by exists xk, c.
      * destruct (Forall_tested_cases _ _ Hall) as [Hyes|Hno].
        -- by apply Htrue in Hyes.
        -- eapply Exists_impl; [exact Hno|].
           intros [k space] Hks. by apply entry_test_Ok.
  - split; [|split]; [split; [done|] |done|].
    + intros H. exfalso. apply Exists_exists in Hres as ([k space] & Hin & Hr).
      rewrite Forall_forall in H. destruct (H _ Hin) as (xk & Hk & Hc).
      cbn in Hr. rewrite Hk in Hr. cbn in Hr. congruence.
    + intros e' [= <-]. eapply Exists_impl; [exact Hres|].
      intros [k space]. cbn.
      destruct (value_getitem x k) as [xk|e']; cbn; [by eauto|].
      intros [= ->]. by left.
Qed.

(** X10. When [Dict.contains] raises.  An empty dictionary of spaces
    contains every value.  A dictionary of spaces with at least one entry
    raises a [TypeError] for an integer, and for a tuple when all its keys
    are strings (a tuple is subscripted by integers only).  For a
    dictionary value that lacks a key of the dictionary of spaces, the
    call raises an exception: it never answers false for a missing
    key. *)
Theorem Dict_contains_raises (spaces : list (dict_key * S)) :
  (forall x, Dict_contains (mkDict (@nil (dict_key * S))) x = Ok true) /\
  (spaces <> [] ->
   (forall z, Dict_contains (mkDict spaces) (VInt z) = Raise TypeError) /\
   (Forall (fun '(k, _) => exists s, k = KStr s) spaces ->
    forall vs, Dict_contains (mkDict spaces) (VTuple vs) = Raise TypeError)) /\
  (forall kvs k, k ∈ spaces.*1 -> k ∉ kvs.*1 ->
   exists e, Dict_contains (mkDict spaces) (VDict kvs) = Raise e).
Proof.
  split; [done|]. split.
  - intros Hne.
    assert (forall x,
              Forall (fun '(k, _) => value_getitem x k = Raise TypeError)
                     spaces ->
              Dict_contains (mkDict spaces) x = Raise TypeError) as Hraise.
    { intros x Hx. pose proof (Dict_contains_result spaces x) as Hres.
      rewrite Forall_forall in Hx.
      destruct (Dict_contains (mkDict spaces) x) as [b|e].
      - destruct Hres as [Hall _]. destruct spaces as [|[k space] l]; [done|].
        apply Forall_cons in Hall as [[c Hc] _]. cbn in Hc.
        specialize (Hx (k, space) ltac:(left)). cbn in Hx.
        by rewrite Hx in Hc.
      - apply Exists_exists in Hres as ([k space] & Hin & Hr). cbn in Hr.
        specialize (Hx _ Hin). cbn in Hx.
        rewrite Hx in Hr. cbn in Hr. congruence. }
    split.
    + intros z. apply Hraise, Forall_forall. by intros [k space] _.
    + intros Hstr vs. apply Hraise.
      eapply Forall_impl; [exact Hstr|]. by intros [k space] [s ->].
  - intros kvs k Hk Hmissing.
    pose proof (Dict_contains_result spaces (VDict kvs)) as Hres.
    destruct (Dict_contains (mkDict spaces) (VDict kvs)) as [b|e]; [|by eauto].
    exfalso. destruct Hres as [Hall _].
    apply list_elem_of_fmap in Hk as ([k' space] & -> & Hin).
    rewrite Forall_forall in Hall. destruct (Hall _ Hin) as [c Hc].
    apply entry_test_Ok in Hc as (xk & Hget & _).
    apply Hmissing. by eapply dict_getitem_Ok.
Qed.

Lemma mapM_Ok_lookup {A B : Type} (f : A -> result B) l vs i a :
  mapM f l = Ok vs -> l !! i = Some a ->
  exists b, vs !! i = Some b /\ f a = Ok b.
Proof.
  revert vs i. induction l as [|a' l IH]; intros vs i; [done|]. cbn.
  destruct (f a') as [b'|e] eqn:Hb; [|done]. cbn.
  destruct (mapM f l) as [bs|e]; [|done]. cbn.
  intros [= <-]. destruct i as [|i]; cbn.
  - intros [= <-]. by exists b'.
  - intros Ha. by eapply IH.
Qed.

(** The value of a successful [Dict.sample]. *)
Lemma Dict_sample_Ok (spaces : list (dict_key * S)) (rng : PRNGKey) v :
  NoDup spaces.*1 ->
  Dict_sample (mkDict spaces) rng = Ok v ->
  exists vs,
    v = VDict (zip spaces.*1 vs) /\
    length vs = length spaces /\
    forall i k space,
      spaces !! i = Some (k, space) ->
      exists key vi,
        split rng (length spaces) !! i = Some key /\
        vs !! i = Some vi /\
        sample space key = Ok vi.
Proof.
  intros Hnd. rewrite Dict_sample_delegates by done.
  destruct (mapM _ _) as [vs|e] eqn:Hvs; [|done]. cbn. intros [= <-].
  exists vs. split; [done|].
  assert (length (zip spaces (split rng (length spaces))) = length spaces)
    as Hzip by (rewrite length_zip, split_length; lia).
  split; [by rewrite (mapM_Ok_length _ _ _ Hvs)|].
  intros i k space Hi.
  destruct (lookup_lt_is_Some_2 (split rng (length spaces)) i) as [key Hkey].
  { rewrite split_length. by eapply lookup_lt_Some. }
  assert (zip spaces (split rng (length spaces)) !! i = Some ((k, space), key))
    as Hcall by (apply lookup_zip_with_Some; eauto).
  destruct (mapM_Ok_lookup _ _ _ _ _ Hvs Hcall) as (vi & Hvi & Hsample).
  by exists key, vi.
Qed.

(** X11. [Dict.sample] delegates to the entries.  For a dictionary of
    spaces (its keys are distinct), the seed is split into as many keys as
    there are entries, and the [i]-th space is sampled with the [i]-th
    key, in the order of the entries; the exception of the first entry
    whose [sample] raises is raised.  A returned value is a dictionary
    with the keys of the dictionary of spaces, in the same order, that
    holds under the [i]-th key the sample of the [i]-th space. *)
Theorem Dict_sample_per_entry (spaces : list (dict_key * S)) (rng : PRNGKey) :
  NoDup spaces.*1 ->
  Dict_sample (mkDict spaces) rng =
    (vs ← mapM (fun '((k, space), key) => sample space key)
               (zip spaces (split rng (length spaces)));
     mret (VDict (zip spaces.*1 vs))) /\
  (forall v, Dict_sample (mkDict spaces) rng = Ok v ->
   exists vs,
     v = VDict (zip spaces.*1 vs) /\
     length vs = length spaces /\
     forall i k space,
       spaces !! i = Some (k, space) ->
       exists key vi,
         split rng (length spaces) !! i = Some key /\
         vs !! i = Some vi /\
         sample space key = Ok vi).
Proof.
  intros Hnd. split; [by apply Dict_sample_delegates|].
  intros v. by apply Dict_sample_Ok.
Qed.

(** X12. A sample of a dictionary of spaces is a member of it.  Take a
    dictionary of spaces (its keys are distinct) such that every value
    sampled from the space of an entry is contained in that space.  Then
    every value that [Dict.sample] returns is contained:
    [Dict.contains] of it is true. *)
Theorem Dict_sample_is_member (spaces : list (dict_key * S)) (rng : PRNGKey) v :
  NoDup spaces.*1 ->
  (forall k space key vi,
     (k, space) ∈ spaces -> sample space key = Ok vi ->
     contains space vi = Ok true) ->
  Dict_sample (mkDict spaces) rng = Ok v ->
  Dict_contains (mkDict spaces) v = Ok true.
Proof.
  intros Hnd Hclosed Hv.
  destruct (Dict_sample_Ok spaces rng v Hnd Hv) as (vs & -> & Hlen & Hvs).
  apply Dict_contains_componentwise, Forall_lookup.
  intros i [k space] Hi.
  destruct (Hvs i k space Hi) as (key & vi & _ & Hvi & Hsample).
  exists vi. split.
  - cbn. eapply dict_getitem_zip; [done| |done].
    by rewrite list_lookup_fmap, Hi.
  - eapply Hclosed; [|done]. by eapply list_elem_of_lookup_2.
Qed.

End Composite.

(** X13. A tuple of discrete spaces.  For an integer, [Tuple.contains]
    answers whether the integer is in every one of the discrete spaces.
    For a tuple and for a dictionary it raises a [TypeError] as soon as
    there is one space: the whole value is compared with a number. *)
Theorem Tuple_of_Discrete_contains (spaces : list Discrete) :
  (forall z,
     Tuple_contains (PRNGKey := PRNGKey) (mkTuple spaces) (VInt z) =
       Ok (forallb (fun s => (0 <=? z) && (z <? num_categories s)) spaces)) /\
  (spaces <> [] ->
   (forall vs, Tuple_contains (PRNGKey := PRNGKey) (mkTuple spaces) (VTuple vs)
               = Raise TypeError) /\
   (forall kvs, Tuple_contains (PRNGKey := PRNGKey) (mkTuple spaces) (VDict kvs)
                = Raise TypeError)).
Proof.
  assert (forall x,
            match Tuple_contains (PRNGKey := PRNGKey) (mkTuple spaces) x with
            | Ok b =>
                Forall (fun s => exists c, Discrete_contains s x = Ok c) spaces /\
                (b = true <->
                 Forall (fun s => Discrete_contains s x = Ok true) spaces)
            | Raise e => Exists (fun s => Discrete_contains s x = Raise e) spaces
            end) as Hres
    by (intros x; apply (count_loop_outcome (fun s => Discrete_contains s x))).
  split.
  - intros z. specialize (Hres (VInt z)).
    destruct (Tuple_contains _ _) as [b|e].
    + destruct Hres as [_ Htrue]. f_equal. apply eq_true_iff_eq.
      rewrite Htrue, forallb_forall, Forall_forall.
      apply forall_proper. intros [n].
      rewrite list_elem_of_In, Discrete_contains_int. cbn.
      rewrite andb_true_iff, Z.leb_le, Z.ltb_lt. done.
    + apply Exists_exists in Hres as (s & _ & Hr). done.
  - intros Hne.
    assert (forall x, (forall s, Discrete_contains s x = Raise TypeError) ->
              Tuple_contains (PRNGKey := PRNGKey) (mkTuple spaces) x
              = Raise TypeError) as Hraise.
    { intros x Hx. specialize (Hres x).
      destruct (Tuple_contains _ _) as [b|e].
      - destruct Hres as [Hall _]. destruct spaces as [|s l]; [done|].
        apply Forall_cons in Hall as [[c Hc] _]. by rewrite Hx in Hc.
      - apply Exists_exists in Hres as (s & _ & Hr). rewrite Hx in Hr.
        congruence. }
    split; intros; by apply Hraise.
Qed.

End SpacesOutcomes.

(** ** The model at concrete inputs *)

Section Examples.
Import Catch Spaces.

(** The generator of the examples: keys are integers. *)
Local Abbreviation key := (Z) (only parsing).

Example reset_seed_0 :
  (reset (0 : key) params_catch).2 = mkState 0 0 2 9 0 0.
Proof. reflexivity. Qed.

(** A caught ball: the paddle under the ball, one row above the paddle
    row, and the action 1 that leaves the paddle in place. *)
Example step_catch :
  let r := step (0 : key) params_catch (mkState 3 8 3 9 8 0) 1 in
  res_state r = mkState 3 9 3 9 9 1 /\ res_reward r = 1 /\ res_done r = true.
Proof. done. Qed.

(** The sibling [Dict] samples and tests entry by entry. *)
Example Dict_sample_two :
  Dict_sample (mkDict [(KStr "a", mkDiscrete 3); (KStr "b", mkDiscrete 5)])
    (4 : key)
  = Ok (VDict [(KStr "a", VInt (8 mod 2)); (KStr "b", VInt (9 mod 4))]).
Proof. reflexivity. Qed.

Example Dict_contains_two :
  Dict_contains (PRNGKey := key)
    (mkDict [(KStr "a", mkDiscrete 3); (KStr "b", mkDiscrete 5)])
    (VDict [(KStr "a", VInt 2); (KStr "b", VInt 5)])
  = Ok false.
Proof. reflexivity. Qed.

(** The state of a caught ball in column 2 is reached from [reset] with
    seed 2 by nine steps with the action 1. *)
Lemma caught_state_reachable : reachable (mkState 2 9 2 9 9 1).
Proof.
  pose proof (reachable_reset (2 : key) params_catch) as H0.
  change (reachable (mkState 2 0 2 9 0 0)) in H0.
  do 9 (apply (reachable_step (0 : key) params_catch _ 1) in H0;
        vm_compute in H0).
  exact H0.
Qed.

Lemma step_blend_witness :
  let state := mkState 1 3 0 9 4 1 in
  let s' := res_state (step (7 : key) params_catch state 0) in
  (done_flag state = 0 \/ done_flag state = 1) /\
  state_int32 state /\ int32 0 /\
  ball_x s' = 2 /\ ball_y s' = 0 /\ paddle_x s' = 2 /\ paddle_y s' = 9.
Proof.
  cbv zeta.
  assert (state_int32 (mkState 1 3 0 9 4 1)) as Hstate
    by (unfold state_int32, int32, int_min, int_max; cbn; lia).
  assert (int32 0) as Hact by (unfold int32, int_min, int_max; lia).
  split; [by right|]. split; [exact Hstate|]. split; [exact Hact|].
  destruct (step_blend (7 : key) params_catch (mkState 1 3 0 9 4 1) 0
              (or_intror eq_refl) Hstate Hact) as (_ & Hdone & _).
  destruct (Hdone eq_refl) as (Hbx & Hby & _ & Hpx & _ & Hpy).
  exact (conj Hbx (conj Hby (conj Hpx Hpy))).
Defined.

(** The sums of [step] wrap around.  With the paddle in column 4 and the
    action [2^31 - 1], the new paddle is in column 0, not in column
    [clip (paddle_x + action - 1) 0 4 = 4]; with the ball in row
    [2^31 - 1], the new row is [- 2^31], not [ball_y + 1]. *)
Lemma step_blend_wraps :
  let state := mkState 1 3 4 9 3 0 in
  let action := 2147483647 in
  let state2 := mkState 1 2147483647 4 9 3 0 in
  (done_flag state = 0 /\ state_int32 state /\ int32 action /\
   paddle_x (res_state (step (0 : key) params_catch state action)) = 0 /\
   clip (paddle_x state + action - 1) 0 4 = 4 /\
   paddle_x (res_state (step (0 : key) params_catch state action))
     <> clip (paddle_x state + action - 1) 0 4) /\
  (done_flag state2 = 0 /\ state_int32 state2 /\
   ball_y (res_state (step (0 : key) params_catch state2 1)) = -2147483648 /\
   ball_y (res_state (step (0 : key) params_catch state2 1))
     <> ball_y state2 + 1).
Proof.
  cbv zeta.
  change (res_state (step (0 : key) params_catch (mkState 1 3 4 9 3 0)
                       2147483647))
    with (mkState 1 4 0 9 4 0).
  change (res_state (step (0 : key) params_catch
                       (mkState 1 2147483647 4 9 3 0) 1))
    with (mkState 1 (-2147483648) 4 9 4 0).
  unfold state_int32, int32, int_min, int_max, clip.
  cbn [ball_x ball_y paddle_x paddle_y time_elapsed done_flag].
  repeat split; lia.
Qed.

Lemma step_reward_law_witness :
  let state := mkState 3 8 3 9 8 0 in
  let r := step (0 : key) params_catch state 1 in
  state_invariants state /\
  (res_reward r = 1 <->
   Z.b2z (res_done r) = 1 /\ paddle_x (res_state r) = ball_x (res_state r)).
Proof.
  cbv zeta.
  assert (state_invariants (mkState 3 8 3 9 8 0)) as Hinv
    by (unfold state_invariants, columns, rows; cbn; lia).
  split; [exact Hinv|].
  exact (proj1 (proj2 (step_reward_law (0 : key) params_catch
                         (mkState 3 8 3 9 8 0) 1 Hinv))).
Defined.

Lemma step_done_iff_witness :
  let state := mkState 3 8 1 9 8 0 in
  let r := step (0 : key) params_catch state 2 in
  state_invariants state /\
  (Z.b2z (res_done r) = 1 <-> ball_y (res_state r) = 9).
Proof.
  cbv zeta.
  assert (state_invariants (mkState 3 8 1 9 8 0)) as Hinv
    by (unfold state_invariants, columns, rows; cbn; lia).
  split; [exact Hinv|].
  exact (proj1 (step_done_iff (0 : key) params_catch
                  (mkState 3 8 1 9 8 0) 2 Hinv)).
Defined.

(** The five state invariants are not kept by [step]: they allow a state
    with the ball in the paddle row and the done flag 0, and from it the
    ball falls to row 10. *)
Lemma step_breaks_state_invariants :
  let state := mkState 0 9 0 9 0 0 in
  state_invariants state /\ valid_action 1 /\
  ball_y (res_state (step (0 : key) params_catch state 1)) = 10 /\
  ~ state_invariants (res_state (step (0 : key) params_catch state 1)).
Proof.
  cbv zeta. split; [unfold state_invariants, columns, rows; cbn; lia|].
  split; [right; by left|]. split; [done|].
  change (res_state (step (0 : key) params_catch (mkState 0 9 0 9 0 0) 1))
    with (mkState 0 10 0 9 1 0).
  unfold state_invariants, columns, rows. cbn. lia.
Qed.

Lemma reachable_state_invariants_witness :
  let state := mkState 2 8 2 9 8 0 in
  (episode_invariants state /\ valid_action 1 /\
   episode_invariants (res_state (step (0 : key) params_catch state 1))) /\
  (reachable (mkState 2 9 2 9 9 1) /\
   state_invariants (mkState 2 9 2 9 9 1)).
Proof.
  cbv zeta.
  assert (episode_invariants (mkState 2 8 2 9 8 0)) as Hinv
    by (unfold episode_invariants, state_invariants, columns, rows; cbn; lia).
  assert (valid_action 1) as Hact by (right; by left).
  destruct (reachable_state_invariants (PRNGKey := key))
    as (_ & Hstep & Hreach).
  split.
  - exact (conj Hinv (conj Hact (Hstep 0 params_catch _ 1 Hinv Hact))).
  - exact (conj caught_state_reachable (Hreach _ caught_state_reachable)).
Defined.

Lemma step_time_witness :
  let state := mkState 2 9 2 9 9 1 in
  int32 (time_elapsed state) /\ time_elapsed state < int_max /\
  time_elapsed (res_state (step (4 : key) params_catch state 1)) = 10.
Proof.
  cbv zeta.
  assert (int32 9) as Ht by (unfold int32, int_min, int_max; lia).
  assert (9 < int_max) as Hmax by (unfold int_max; lia).
  split; [exact Ht|]. split; [exact Hmax|].
  exact (proj1 (proj2 (step_time (4 : key) params_catch
                         (mkState 2 9 2 9 9 1) 1)) Ht Hmax).
Defined.

(** The time wraps around: from the largest 32-bit integer the next time
    is the smallest one, not the time plus one. *)
Lemma step_time_wraps :
  let state := mkState 2 3 2 9 2147483647 0 in
  state_int32 state /\
  time_elapsed (res_state (step (4 : key) params_catch state 1))
    = -2147483648 /\
  time_elapsed (res_state (step (4 : key) params_catch state 1))
    <> time_elapsed state + 1.
Proof.
  cbv zeta.
  change (res_state (step (4 : key) params_catch
                       (mkState 2 3 2 9 2147483647 0) 1))
    with (mkState 2 4 2 9 (-2147483648) 0).
  unfold state_int32, int32, int_min, int_max.
  cbn [ball_x ball_y paddle_x paddle_y time_elapsed done_flag].
  repeat split; lia.
Qed.

Lemma step_paddle_bound_witness :
  let state := mkState 1 3 4 9 3 0 in
  0 <= paddle_x state < columns /\ done_flag state = 0 /\
  0 <= paddle_x (res_state (step (0 : key) params_catch state 1000))
    <= columns - 1.
Proof.
  cbv zeta.
  assert (0 <= 4 < columns) as Hpx by (unfold columns; lia).
  split; [exact Hpx|]. split; [done|].
  exact (step_paddle_bound (0 : key) params_catch (mkState 1 3 4 9 3 0) 1000
           Hpx eq_refl).
Defined.

(** The state of a caught ball satisfies the invariants, and its
    observation has one set cell. *)
Lemma get_obs_one_cell :
  let state := mkState 2 9 2 9 9 1 in
  state_invariants state /\
  get_obs state params_catch =
    replicate 9 [0; 0; 0; 0; 0] ++ [[0; 0; 1; 0; 0]] /\
  count_ones (get_obs state params_catch) = 1%nat /\
  count_ones (get_obs state params_catch) <> 2%nat.
Proof.
  cbv zeta. split; [unfold state_invariants, columns, rows; cbn; lia|].
  split; [done|]. split; [done|]. vm_compute. lia.
Qed.

Lemma get_obs_cells_witness :
  let state := mkState 1 3 2 9 3 0 in
  state_invariants state /\
  board_shape (get_obs state params_catch) 10 5 /\
  count_ones (get_obs state params_catch) = 2%nat.
Proof.
  cbv zeta.
  assert (state_invariants (mkState 1 3 2 9 3 0)) as Hinv
    by (unfold state_invariants, columns, rows; cbn; lia).
  split; [exact Hinv|].
  destruct (get_obs_cells (mkState 1 3 2 9 3 0) params_catch Hinv)
    as (Hshape & _ & Hcount).
  exact (conj Hshape Hcount).
Defined.

Lemma Discrete_sample_range_witness :
  2 <= 3 <= 2 ^ 31 /\
  exists z, Discrete_sample (mkDiscrete 3) (5 : key) = Ok (VInt z) /\
    0 <= z <= 3 - 2 /\ z <> 3 - 1.
Proof.
  assert (2 <= 3 <= 2 ^ 31) as Hn by lia.
  split; [exact Hn|].
  exact (proj1 (proj2 (proj1 (Discrete_sample_range 3 (5 : key)) Hn))).
Defined.

(** For [2^31 + 1] categories nothing is drawn: the bound [2^31] is no
    32-bit integer. *)
Lemma Discrete_sample_overflows :
  2 <= 2 ^ 31 + 1 /\
  Discrete_init (2 ^ 31 + 1) = Ok (mkDiscrete (2 ^ 31 + 1)) /\
  Discrete_sample (mkDiscrete (2 ^ 31 + 1)) (5 : key) = Raise OverflowError /\
  ~ (exists z,
       Discrete_sample (mkDiscrete (2 ^ 31 + 1)) (5 : key) = Ok (VInt z)).
Proof.
  split; [lia|]. split; [reflexivity|]. split; [reflexivity|].
  by intros [z Hz].
Qed.

Lemma reset_postcondition_witness :
  let obs := (reset (8 : key) params_catch).1 in
  (0 <= 0 < rows -> 0 <= 3 < columns ->
   cell obs (Z.to_nat 0) (Z.to_nat 3) = Some 1) /\
  count_ones obs = 2%nat.
Proof.
  cbv zeta.
  destruct (reset_postcondition (8 : key) params_catch)
    as (_ & _ & _ & _ & Hcell & Hcount).
  split; [|exact Hcount].
  intros Hr Hc. exact (Hcell 0 3 Hr Hc).
Defined.

Lemma step_after_done_is_reset_witness :
  let state := mkState 4 9 0 9 9 1 in
  done_flag state = 1 /\
  res_state (step (8 : key) params_catch state 2) = mkState 3 0 2 9 10 0 /\
  res_obs (step (8 : key) params_catch state 2)
    = (reset (8 : key) params_catch).1.
Proof.
  cbv zeta. split; [done|].
  destruct (step_after_done_is_reset (8 : key) params_catch
              (mkState 4 9 0 9 9 1) 2 eq_refl) as (Hobs & Hstate & _).
  exact (conj Hstate Hobs).
Defined.

Lemma step_obs_shows_catch_witness :
  let state := mkState 3 8 3 9 8 0 in
  let r := step (0 : key) params_catch state 1 in
  episode_invariants state /\
  (res_reward r = 1 -> count_ones (res_obs r) = 1%nat).
Proof.
  cbv zeta.
  assert (episode_invariants (mkState 3 8 3 9 8 0)) as Hinv
    by (unfold episode_invariants, state_invariants, columns, rows; cbn; lia).
  split; [exact Hinv|].
  exact (proj1 (proj2 (step_obs_shows_catch (0 : key) params_catch
                         (mkState 3 8 3 9 8 0) 1 Hinv))).
Defined.

Lemma step_paddle_move_witness :
  let state := mkState 1 3 4 9 3 0 in
  0 <= paddle_x state < columns /\ done_flag state = 0 /\ valid_action 2 /\
  (2 = 2 ->
   paddle_x (res_state (step (0 : key) params_catch state 2))
     = Z.min (columns - 1) (paddle_x state + 1)).
Proof.
  cbv zeta.
  assert (0 <= 4 < columns) as Hpx by (unfold columns; lia).
  assert (valid_action 2) as Hact by (right; by right).
  split; [exact Hpx|]. split; [done|]. split; [exact Hact|].
  exact (proj1 (proj2 (proj2 (step_paddle_move (0 : key) params_catch
                                (mkState 1 3 4 9 3 0) 2 Hpx eq_refl Hact)))).
Defined.

Lemma trace_pay_schedule_witness :
  let calls := replicate 9 ((0 : key), 1) in
  let r := step (0 : key) params_catch (mkState 2 8 2 9 8 0) 1 in
  trace params_catch (reset (2 : key) params_catch).2 calls !! 8%nat = Some r /\
  (res_done r = true <-> (Z.of_nat 8 + 1) mod 10 = 9).
Proof.
  cbv zeta.
  assert (trace params_catch (reset (2 : key) params_catch).2
            (replicate 9 ((0 : key), 1)) !! 8%nat
          = Some (step (0 : key) params_catch (mkState 2 8 2 9 8 0) 1))
    as Hr by reflexivity.
  split; [exact Hr|].
  exact (proj1 (trace_pay_schedule (2 : key) params_catch _ 8 _ Hr)).
Defined.

Lemma every_ball_can_be_caught_witness :
  exists actions : list Z,
    length actions = 9%nat /\
    (length (replicate 9 (0 : key)) = 9%nat ->
     res_reward <$>
       trace params_catch (reset (4 : key) params_catch).2
         (zip (replicate 9 (0 : key)) actions)
     = [0; 0; 0; 0; 0; 0; 0; 0; 1]).
Proof.
  destruct (every_ball_can_be_caught (4 : key) params_catch)
    as (actions & Hlen & _ & Hcatch).
  exists actions. split; [exact Hlen|].
  intros Hseeds. exact (Hcatch _ Hseeds).
Defined.

Lemma get_obs_determines_positions_witness :
  let s1 := mkState 1 3 2 9 3 0 in
  let s2 := mkState 1 3 2 9 13 0 in
  state_invariants s1 /\ state_invariants s2 /\
  ball_y s1 < 9 /\ ball_y s2 < 9 /\
  get_obs s1 params_catch = get_obs s2 params_catch /\
  ball_x s1 = ball_x s2 /\ ball_y s1 = ball_y s2 /\ paddle_x s1 = paddle_x s2.
Proof.
  cbv zeta.
  assert (state_invariants (mkState 1 3 2 9 3 0)) as Hinv1
    by (unfold state_invariants, columns, rows; cbn; lia).
  assert (state_invariants (mkState 1 3 2 9 13 0)) as Hinv2
    by (unfold state_invariants, columns, rows; cbn; lia).
  assert (3 < 9) as Hy by lia.
  split; [exact Hinv1|]. split; [exact Hinv2|].
  split; [exact Hy|]. split; [exact Hy|]. split; [reflexivity|].
  exact (proj1 get_obs_determines_positions _ _ params_catch params_catch
           Hinv1 Hinv2 Hy Hy eq_refl).
Defined.


(** The example of the dictionaries: two discrete spaces. *)
Local Abbreviation two_spaces :=
  ([(KStr "a", mkDiscrete 3); (KStr "b", mkDiscrete 5)])
  (only parsing).

Lemma two_spaces_NoDup : NoDup (two_spaces.*1).
Proof. compute_done. Qed.

Lemma Dict_contains_outcome_witness :
  let x := VDict [(KStr "a", VInt 2); (KStr "b", VInt 5)] in
  Dict_contains (PRNGKey := key) (mkDict two_spaces) x = Ok false /\
  Exists (fun '(k, space) =>
            exists xk, value_getitem x k = Ok xk /\
                       contains (PRNGKey := key) space xk = Ok false)
         two_spaces.
Proof.
  cbv zeta.
  assert (Dict_contains (PRNGKey := key) (mkDict two_spaces)
            (VDict [(KStr "a", VInt 2); (KStr "b", VInt 5)]) = Ok false)
    as Hfalse by reflexivity.
  split; [exact Hfalse|].
  exact (proj2 (proj1 (proj2 (Dict_contains_outcome (PRNGKey := key)
                                two_spaces _)) Hfalse)).
Defined.

Lemma Dict_contains_raises_witness :
  two_spaces <> [] /\
  Forall (fun '(k, _) => exists s, k = KStr s) two_spaces /\
  Dict_contains (PRNGKey := key) (mkDict two_spaces) (VInt 1)
    = Raise TypeError /\
  Dict_contains (PRNGKey := key) (mkDict two_spaces) (VTuple [VInt 1; VInt 2])
    = Raise TypeError /\
  (KStr "b" ∈ two_spaces.*1) /\
  (KStr "b" ∉ [(KStr "a", VInt 2)].*1) /\
  (exists e,
     Dict_contains (PRNGKey := key) (mkDict two_spaces)
       (VDict [(KStr "a", VInt 2)]) = Raise e).
Proof.
  assert (two_spaces <> []) as Hne by done.
  assert (Forall (fun '(k, _) => exists s, k = KStr s) two_spaces) as Hstr
    by (repeat constructor; by eexists).
  assert (KStr "b" ∈ two_spaces.*1) as Hin by compute_done.
  assert (KStr "b" ∉ [(KStr "a", VInt 2)].*1) as Hout by compute_done.
  destruct (Dict_contains_raises (PRNGKey := key) two_spaces)
    as (_ & Hother & Hmissing).
  split; [exact Hne|]. split; [exact Hstr|].
  split; [exact (proj1 (Hother Hne) 1)|].
  split; [exact (proj2 (Hother Hne) Hstr _)|].
  split; [exact Hin|]. split; [exact Hout|].
  exact (Hmissing _ _ Hin Hout).
Defined.

(** A dictionary of spaces with the keys 0 and 1 tests a tuple entry by
    entry. *)
Example Dict_contains_tuple :
  Dict_contains (PRNGKey := key)
    (mkDict [(KInt 0, mkDiscrete 3); (KInt 1, mkDiscrete 3)])
    (VTuple [VInt 1; VInt 2]) = Ok true /\
  Dict_contains (PRNGKey := key)
    (mkDict [(KInt 0, mkDiscrete 3); (KInt 1, mkDiscrete 3)])
    (VTuple [VInt 1; VInt 3]) = Ok false.
Proof. split; reflexivity. Qed.

Lemma run_episode_clock_witness :
  let calls := replicate 19 ((0 : key), 1) in
  let s := run params_catch (reset (2 : key) params_catch).2 calls in
  Z.of_nat (length calls) <= int_max /\
  time_elapsed s = 19 /\ ball_y s = 9 /\ done_flag s = 1.
Proof.
  cbv zeta.
  assert (Z.of_nat (length (replicate 19 ((0 : key), 1))) <= int_max) as Hn
    by (unfold int_max; cbn; lia).
  split; [exact Hn|].
  destruct (run_episode_clock (2 : key) params_catch
              (replicate 19 ((0 : key), 1)))
    as (_ & Htime & Hby & Hdone & _).
  exact (conj (Htime Hn) (conj Hby Hdone)).
Defined.

Lemma Dict_sample_per_entry_witness :
  NoDup (two_spaces.*1) /\
  Dict_sample (mkDict two_spaces) (4 : key) =
    (vs ← mapM (fun '((k, space), key) => sample space key)
               (zip two_spaces (split (4 : key) (length two_spaces)));
     mret (VDict (zip two_spaces.*1 vs))).
Proof.
  split; [exact two_spaces_NoDup|].
  exact (proj1 (Dict_sample_per_entry two_spaces (4 : key) two_spaces_NoDup)).
Defined.

Lemma Dict_sample_is_member_witness :
  let v := VDict [(KStr "a", VInt 0); (KStr "b", VInt 1)] in
  NoDup (two_spaces.*1) /\
  (forall k space (rng : key) vi,
     (k, space) ∈ two_spaces -> sample space rng = Ok vi ->
     contains (PRNGKey := key) space vi = Ok true) /\
  Dict_sample (mkDict two_spaces) (4 : key) = Ok v /\
  Dict_contains (PRNGKey := key) (mkDict two_spaces) v = Ok true.
Proof.
  cbv zeta.
  assert (forall k space (rng : key) vi,
            (k, space) ∈ two_spaces -> sample space rng = Ok vi ->
            contains (PRNGKey := key) space vi = Ok true) as Hclosed.
  { intros k space rng vi Hin Hvi.
    assert (space = mkDiscrete 3 \/ space = mkDiscrete 5) as [->| ->].
    { apply elem_of_cons in Hin as [[= _ ->]|Hin]; [by left|].
      apply elem_of_cons in Hin as [[= _ ->]|Hin]; [by right|].
      by apply elem_of_nil in Hin. }
    all: eapply Discrete_sample_contained; [lia|exact Hvi]. }
  assert (Dict_sample (mkDict two_spaces) (4 : key)
          = Ok (VDict [(KStr "a", VInt 0); (KStr "b", VInt 1)]))
    as Hsample by reflexivity.
  split; [exact two_spaces_NoDup|]. split; [exact Hclosed|].
  split; [exact Hsample|].
  exact (Dict_sample_is_member two_spaces (4 : key) _
           two_spaces_NoDup Hclosed Hsample).
Defined.

Lemma Tuple_of_Discrete_contains_witness :
  [mkDiscrete 3; mkDiscrete 5] <> [] /\
  Tuple_contains (PRNGKey := key) (mkTuple [mkDiscrete 3; mkDiscrete 5])
    (VTuple [VInt 1; VInt 2]) = Raise TypeError.
Proof.
  assert ([mkDiscrete 3; mkDiscrete 5] <> []) as Hne by done.
  split; [exact Hne|].
  exact (proj1 (proj2 (Tuple_of_Discrete_contains (PRNGKey := key)
                         [mkDiscrete 3; mkDiscrete 5]) Hne) _).
Defined.

End Examples.
